(** * pyspectral.blackbody: Planck radiance by wavenumber and by wavelength

    A shallow embedding of [pyspectral/blackbody.py] (functions [blackbody_wn]
    and [blackbody]) together with the numpy operations they call, followed by
    the properties of the two functions.

    Layout:
    - [Arith]: the scalar arithmetic the module runs on (dtype float64 and
      dtype float32), as an interface;
    - [ndarray], masked arrays and the handful of numpy operations used;
    - the two functions, line by line;
    - the interpretation of [Arith] the module runs on: [Binary64], IEEE
      arithmetic as numpy performs it, with the C library's [pow] and [expf]
      left open;
    - theorems.  Those stated for any [Arith] hold in particular of
      [Binary64]; the others are stated of [Binary64] itself. *)

From Stdlib Require Import List Arith Lia Bool ZArith.
From Stdlib Require Import Floats.
From Stdlib Require Uint63.
Import ListNotations.

#[local] Set Warnings "-inexact-float".

(** ** Exceptions and logging *)

Inductive exn := ValueError | IndexError | MemoryError.

(** A computation that may raise. *)
Definition raises (A : Type) : Type := (exn + A)%type.

Definition ret {A} (a : A) : raises A := inr a.
Definition raise {A} (e : exn) : raises A := inl e.
Definition bind {A B} (m : raises A) (k : A -> raises B) : raises B :=
  match m with
  | inl e => inl e
  | inr a => k a
  end.

Notation "x <- m ;; k" := (bind m (fun x => k))
  (at level 61, m at next level, right associativity).

Definition of_option {A} (e : exn) (o : option A) : raises A :=
  match o with
  | Some a => ret a
  | None => raise e
  end.

(** ** Arrays *)

(** A numpy array: its shape and its elements in row-major (C) order. *)
Record ndarray (A : Type) := Ndarray { nd_shape : list nat; flat : list A }.
Arguments Ndarray {A} nd_shape flat.
Arguments nd_shape {A} n.
Arguments flat {A} n.

(** Number of elements a shape holds. *)
Definition size_of (sh : list nat) : nat := fold_right Nat.mul 1 sh.

Definition well_formed {A} (a : ndarray A) : Prop :=
  length (flat a) = size_of (nd_shape a).

Definition nd_map {A B} (f : A -> B) (a : ndarray A) : ndarray B :=
  Ndarray (nd_shape a) (map f (flat a)).

(** [a.reshape(new)]: the same elements under another shape of the same size. *)
Definition reshape {A} (a : ndarray A) (new : list nat) : raises (ndarray A) :=
  if size_of new =? size_of (nd_shape a) then ret (Ndarray new (flat a))
  else raise ValueError.

(** [a.reshape(-1, 1)]: one column, as many rows as there are elements. *)
Definition reshape_column {A} (a : ndarray A) : ndarray A :=
  Ndarray [size_of (nd_shape a); 1] (flat a).

(** Broadcasting a 1-D array of shape [(n,)] against a column of shape
    [(N, 1)]: the [(N, n)] grid whose row [i] pairs every element of the 1-D
    array with the column's element [i]. *)
Definition broadcast_row_column {A B C} (f : A -> B -> C)
    (row : list A) (col : ndarray B) : ndarray C :=
  Ndarray [hd 0 (nd_shape col); length row]
          (flat_map (fun c => map (fun r => f r c) row) (flat col)).

(** [n] copies of a row, one after the other. *)
Definition tile {A} (row : list A) (n : nat) : list A := concat (repeat row n).

(** Broadcasting a 1-D array of shape [(n,)] against a grid of shape
    [(N, n)]: the 1-D array is matched with every row of the grid. *)
Definition broadcast_row_grid {A B C} (f : A -> B -> C)
    (row : list A) (grid : ndarray B) : ndarray C :=
  Ndarray (nd_shape grid)
          (map (fun ab => f (fst ab) (snd ab))
               (combine (tile row (hd 0 (nd_shape grid))) (flat grid))).

(** [a[i, j]] of a 2-D array. *)
Definition item2 {A} (a : ndarray A) (i j : nat) : raises A :=
  match nd_shape a with
  | [rows; cols] =>
      if (i <? rows) && (j <? cols)
      then of_option IndexError (nth_error (flat a) (i * cols + j))
      else raise IndexError
  | _ => raise IndexError
  end.

(** [a[:, j]] of a 2-D array: a 1-D array with one element per row. *)
Definition column {A} (a : ndarray A) (j : nat) : raises (ndarray A) :=
  match nd_shape a with
  | [rows; cols] =>
      if j <? cols
      then ret (Ndarray [rows]
                  (flat_map (fun i => firstn 1 (skipn (i * cols + j) (flat a)))
                            (seq 0 rows)))
      else raise IndexError
  | _ => raise IndexError
  end.

(** [a[i, :]] of a 2-D array: row [i] as a 1-D array. *)
Definition row {A} (a : ndarray A) (i : nat) : raises (ndarray A) :=
  match nd_shape a with
  | [rows; cols] =>
      if i <? rows
      then ret (Ndarray [cols] (firstn cols (skipn (i * cols) (flat a))))
      else raise IndexError
  | _ => raise IndexError
  end.

(** ** The arithmetic interface

    The module computes in dtype float64, except for the exponent argument,
    which it casts to dtype float32.  The interface lists the literals of the
    source text and the scalar operations behind the numpy calls. *)

Record Arith : Type := {
  f64 : Type;
  f32 : Type;
  (* literals *)
  lit_6_62606957 : f64;
  lit_1e_34 : f64;
  lit_1_3806488 : f64;
  lit_1e_23 : f64;
  lit_2_99792458 : f64;
  lit_1e8 : f64;
  lit_0_000001 : f64;
  lit_1 : f64;
  lit_2 : f64;
  lit_m9 : f64;
  (* float64 *)
  mul : f64 -> f64 -> f64;
  div : f64 -> f64 -> f64;
  pow : f64 -> positive -> f64;
  absolute : f64 -> f64;
  greater : f64 -> f64 -> bool;
  equal : f64 -> f64 -> bool;
  maximum : f64 -> f64 -> f64;
  minimum : f64 -> f64 -> f64;
  (* float32 *)
  astype_float32 : f64 -> f32;
  astype_float64 : f32 -> f64;
  one32 : f32;
  mul32 : f32 -> f32 -> f32;
  exp32 : f32 -> f32;
  sub32 : f32 -> f32 -> f32;
  maximum32 : f32 -> f32 -> f32;
  minimum32 : f32 -> f32 -> f32;
  negative32 : f32 -> bool;
  (* numpy.ma's validity test on a quotient [a / b]: [true] where the entry
     is masked out (a divisor that is zero against [a], a quotient that is
     not finite). *)
  divide_invalid : f64 -> f64 -> bool
}.

(** ** Python values at the interface of the two functions *)

(** The spectral argument: a number ([np.isscalar]) or a sequence of numbers,
    as the docstrings have it. *)
Inductive spectral_input (F : Type) :=
| Wscalar (x : F)
| Wsequence (l : list F).
Arguments Wscalar {F} x.
Arguments Wsequence {F} l.

(** The temperature argument: a number or an array of any shape. *)
Inductive temperature_input (F : Type) :=
| Tscalar (x : F)
| Tarray (a : ndarray F).
Arguments Tscalar {F} x.
Arguments Tarray {F} a.

(** What the functions return: a float64 number, the constant
    [numpy.ma.masked], or a masked array (value and mask per element). *)
Inductive radiance (F : Type) :=
| Float64 (x : F)
| Masked
| MaskedArray (a : ndarray (F * bool)).
Arguments Float64 {F} x.
Arguments Masked {F}.
Arguments MaskedArray {F} a.

(** Records sent to the module's logger.  The payload of a max/min record of
    a masked array is [None] where numpy prints [--]. *)
Inductive log_record (F F32 : Type) :=
| DebugUsingWavenumbers
| DebugUsingWavelengths
| DebugMaxMinArg1 (mx mn : F)
| DebugMaxMinArg2 (mx mn : option F)
| DebugMaxMinBeforeExp (mx mn : option F32)
| WarningDimensions
| WarningFishy
| WarningDubious (count : nat).
Arguments DebugUsingWavenumbers {F F32}.
Arguments DebugUsingWavelengths {F F32}.
Arguments DebugMaxMinArg1 {F F32} mx mn.
Arguments DebugMaxMinArg2 {F F32} mx mn.
Arguments DebugMaxMinBeforeExp {F F32} mx mn.
Arguments WarningDimensions {F F32}.
Arguments WarningFishy {F F32}.
Arguments WarningDubious {F F32} count.

(** The arrays of the size of the whole grid that [blackbody] builds, by the
    expression of the source that builds them.  Only the first is built
    inside the [try] block. *)
Inductive allocation :=
| AllocProduct   (* np.multiply(arg1.astype('float32'), arg2.astype('float32')) *)
| AllocNegative  (* np.where(exp_arg < 0) *)
| AllocExp       (* np.exp(exp_arg) *)
| AllocDenom     (* np.exp(exp_arg) - 1 *)
| AllocRad.      (* nom / denom *)

(** [a.max()] / [a.min()] of an array: numpy raises on an empty one. *)
Definition reduce {A} (op : A -> A -> A) (l : list A) : raises A :=
  match l with
  | [] => raise ValueError
  | x :: r => ret (fold_left op r x)
  end.

Definition unmasked {A} (cells : list (A * bool)) : list A :=
  map fst (filter (fun c => negb (snd c)) cells).

(** The same of a masked array: masked elements do not take part, and the
    result is [masked] when every element is. *)
Definition ma_reduce {A} (op : A -> A -> A) (cells : list (A * bool))
  : raises (option A) :=
  match cells with
  | [] => raise ValueError
  | _ => match unmasked cells with
         | [] => ret None
         | x :: r => ret (Some (fold_left op r x))
         end
  end.

(** [rad[0, 0]] of a masked array: the number, or [masked]. *)
Definition ma_item {F} (c : F * bool) : radiance F :=
  if snd c then Masked else Float64 (fst c).

Section Blackbody.

Variable A : Arith.

Let F := f64 A.
Let F32 := f32 A.

Definition H_PLANCK : F := mul A (lit_6_62606957 A) (lit_1e_34 A).
Definition K_BOLTZMANN : F := mul A (lit_1_3806488 A) (lit_1e_23 A).
Definition C_SPEED : F := mul A (lit_2_99792458 A) (lit_1e8 A).
Definition EPSILON : F := lit_0_000001 A.

(** [np.array([x, ], dtype='float64')] for a scalar, [np.array(x, ...)]
    otherwise. *)
Definition temperature_array (temp : temperature_input F) : ndarray F :=
  match temp with
  | Tscalar t => Ndarray [1] [t]
  | Tarray a => a
  end.

Definition spectral_array (w : spectral_input F) : list F :=
  match w with
  | Wscalar x => [x]
  | Wsequence l => l
  end.

(** [np.where(np.greater(np.abs(temperature), EPSILON),
             np.array(1. / temperature), -9)] on one element. *)
Definition reciprocal_or_sentinel (t : F) : F :=
  if greater A (absolute A t) EPSILON then div A (lit_1 A) t else lit_m9 A.

(** [np.ma.masked_array(arg2, mask=arg2 == -9)] on one element. *)
Definition mask_sentinel (x : F) : F * bool := (x, equal A x (lit_m9 A)).

(** [arg2] of both functions: the column of masked reciprocal temperatures. *)
Definition arg2_of (temperature : ndarray F) : ndarray (F * bool) :=
  nd_map mask_sentinel
         (reshape_column (nd_map reciprocal_or_sentinel temperature)).

(** [np.multiply(arg1.astype('float32'), arg2.astype('float32'))]: the mask
    of [arg2] is carried along its row. *)
Definition exp_arg_of (arg1 : list F) (arg2 : ndarray (F * bool))
  : ndarray (F32 * bool) :=
  broadcast_row_column
    (fun a b => (mul32 A a (fst b), snd b))
    (map (astype_float32 A) arg1)
    (nd_map (fun c => (astype_float32 A (fst c), snd c)) arg2).

(** [np.exp(exp_arg) - 1], still in float32. *)
Definition denom_of (exp_arg : ndarray (F32 * bool)) : ndarray (F32 * bool) :=
  nd_map (fun c => (sub32 A (exp32 A (fst c)) (one32 A), snd c)) exp_arg.

(** One element of [nom / denom]: the quotient in float64; masked where the
    divisor is masked or numpy.ma finds the quotient invalid, and a masked
    element keeps the dividend as its stored value. *)
Definition ma_true_divide (a : F) (b : F32 * bool) : F * bool :=
  let d := astype_float64 A (fst b) in
  let m := snd b || divide_invalid A a d in
  (if m then a else div A a d, m).

Definition rad_of (nom : list F) (denom : ndarray (F32 * bool))
  : ndarray (F * bool) :=
  broadcast_row_grid ma_true_divide nom denom.

(** The closing [if]/[else] ladder shared by both functions. *)
Definition select_shape (spectral : list F) (temperature : ndarray F)
    (rad : ndarray (F * bool)) : raises (radiance F) :=
  let shape := nd_shape temperature in
  let radshape1 := nth 1 (nd_shape rad) 0 in
  if length spectral =? 1 then
    match shape with
    | [] => raise IndexError
    | s0 :: _ =>
        if s0 =? 1 then c <- item2 rad 0 0 ;; ret (ma_item c)
        else col <- column rad 0 ;; r <- reshape col shape ;; ret (MaskedArray r)
    end
  else
    match shape with
    | [] => raise IndexError
    | s0 :: rest =>
        if s0 =? 1 then r <- row rad 0 ;; ret (MaskedArray r)
        else if length shape =? 1 then
          r <- reshape rad [s0; radshape1] ;; ret (MaskedArray r)
        else
          match rest with
          | [] => raise IndexError
          | s1 :: _ => r <- reshape rad [s0; s1; radshape1] ;; ret (MaskedArray r)
          end
    end.

(** The element-wise expressions of [blackbody_wn]:
    [nom = 2 * H_PLANCK * (C_SPEED ** 2) * (wavnum ** 3)] and
    [arg1 = H_PLANCK * C_SPEED * wavnum / K_BOLTZMANN]. *)
Definition nom_wn (w : F) : F :=
  mul A (mul A (mul A (lit_2 A) H_PLANCK) (pow A C_SPEED 2)) (pow A w 3).
Definition arg1_wn (w : F) : F :=
  div A (mul A (mul A H_PLANCK C_SPEED) w) K_BOLTZMANN.

(** The element-wise expressions of [blackbody]:
    [const = 2 * H_PLANCK * C_SPEED ** 2], [nom = const / wavelength ** 5] and
    [arg1 = H_PLANCK * C_SPEED / (K_BOLTZMANN * wavelength)]. *)
Definition const : F := mul A (mul A (lit_2 A) H_PLANCK) (pow A C_SPEED 2).
Definition nom_wl (w : F) : F := div A const (pow A w 5).
Definition arg1_wl (w : F) : F :=
  div A (mul A H_PLANCK C_SPEED) (mul A K_BOLTZMANN w).

Definition blackbody_wn (wavenumber : spectral_input F)
    (temp : temperature_input F)
  : list (log_record F F32) * raises (radiance F) :=
  let temperature := temperature_array temp in
  let wavnum := spectral_array wavenumber in
  let nom := map nom_wn wavnum in
  let arg1 := map arg1_wn wavnum in
  let arg2 := arg2_of temperature in
  let exp_arg := exp_arg_of arg1 arg2 in
  let denom := denom_of exp_arg in
  let rad := rad_of nom denom in
  ([DebugUsingWavenumbers], select_shape wavnum temperature rad).

(** [blackbody].  The allocator is the one part of the environment the
    function reacts to: [memory a n] tells whether the [n]-element array of
    expression [a] can be allocated.  A [MemoryError] raised inside the [try]
    block is logged and re-raised; one raised after it propagates as it is.
    (Arrays of the size of one argument, and the temporaries inside numpy's
    reductions, are taken as allocated.) *)
Definition blackbody_allocating (memory : allocation -> nat -> bool)
    (wavel : spectral_input F) (temp : temperature_input F)
  : list (log_record F F32) * raises (radiance F) :=
  let log0 := [DebugUsingWavelengths] in
  let temperature := temperature_array temp in
  let wavelength := spectral_array wavel in
  let nom := map nom_wl wavelength in
  let arg1 := map arg1_wl wavelength in
  let arg2 := arg2_of temperature in
  let n := length wavelength * length (flat arg2) in
  match reduce (maximum A) arg1, reduce (minimum A) arg1 with
  | inr mx1, inr mn1 =>
    let log1 := log0 ++ [DebugMaxMinArg1 mx1 mn1] in
    match ma_reduce (maximum A) (flat arg2), ma_reduce (minimum A) (flat arg2) with
    | inr mx2, inr mn2 =>
      let log2 := log1 ++ [DebugMaxMinArg2 mx2 mn2] in
      if memory AllocProduct n then
        let exp_arg := exp_arg_of arg1 arg2 in
        match ma_reduce (maximum32 A) (flat exp_arg),
              ma_reduce (minimum32 A) (flat exp_arg) with
        | inr mx3, inr mn3 =>
          let log3 := log2 ++ [DebugMaxMinBeforeExp mx3 mn3] in
          let fishy :=
            match mn3 with
            | Some m => negative32 A m
            | None => false
            end in
          if fishy && negb (memory AllocNegative n) then
            (log3 ++ [WarningFishy], raise MemoryError)
          else
            let log4 :=
              if fishy then
                log3 ++ [WarningFishy;
                         WarningDubious
                           (length (filter (fun c => negative32 A (fst c))
                                           (flat exp_arg)))]
              else log3 in
            if memory AllocExp n && memory AllocDenom n && memory AllocRad n
            then
              let denom := denom_of exp_arg in
              let rad := rad_of nom denom in
              (log4, select_shape wavelength temperature rad)
            else (log4, raise MemoryError)
        | inl e, _ | _, inl e => (log2, raise e)
        end
      else (log2 ++ [WarningDimensions], raise MemoryError)
    | inl e, _ | _, inl e => (log1, raise e)
    end
  | inl e, _ | _, inl e => (log0, raise e)
  end.

(** An allocator that grants every array built after the [try] block:
    [memory n] tells whether the [n]-element product of the [try] block can
    be allocated. *)
Definition after_try (memory : nat -> bool) (a : allocation) (n : nat)
  : bool :=
  match a with
  | AllocProduct => memory n
  | _ => true
  end.

(** [blackbody] when only the product of the [try] block can fail to be
    allocated. *)
Definition blackbody (memory : nat -> bool) (wavel : spectral_input F)
    (temp : temperature_input F)
  : list (log_record F F32) * raises (radiance F) :=
  blackbody_allocating (after_try memory) wavel temp.

End Blackbody.

(** ** IEEE interpretation

    float64 is the kernel's binary64; float32 values are [spec_float]s at
    precision 24 and maximal exponent 128, with [SpecFloat]'s correctly
    rounded operations.  The two C library functions numpy calls, [pow] (for
    [**]) and [expf] (for [np.exp] on float32), are not fixed by IEEE 754 and
    stay open. *)
Module Binary64.

Definition prec32 : Z := 24.
Definition emax32 : Z := 128.

(** Rounding to the nearest binary32 value. *)
Definition round32 (x : spec_float) : spec_float :=
  match x with
  | S754_finite s m e => binary_normalize prec32 emax32 (cond_Zopp s (Zpos m)) e s
  | _ => x
  end.

Definition is_nan32 (x : spec_float) : bool :=
  match x with
  | S754_nan => true
  | _ => false
  end.

(** [np.maximum] / [np.minimum]: a NaN operand is returned. *)
Definition np_maximum (a b : float) : float :=
  if is_nan a then a else if is_nan b then b
  else if PrimFloat.ltb a b then b else a.
Definition np_minimum (a b : float) : float :=
  if is_nan a then a else if is_nan b then b
  else if PrimFloat.ltb b a then b else a.
Definition np_maximum32 (a b : spec_float) : spec_float :=
  if is_nan32 a then a else if is_nan32 b then b
  else if SFltb a b then b else a.
Definition np_minimum32 (a b : spec_float) : spec_float :=
  if is_nan32 a then a else if is_nan32 b then b
  else if SFltb b a then b else a.

(** A NaN, or a float with its sign bit clear: +0, a positive number or
    +infinity. *)
Definition sign_clear (x : spec_float) : bool :=
  match x with
  | S754_zero s | S754_infinity s | S754_finite s _ _ => negb s
  | S754_nan => true
  end.

(** [np.finfo(float).tiny], the tolerance of numpy.ma's safe division. *)
Definition tiny : float := 0x1p-1022%float.

(** numpy.ma masks [a / b] when the quotient is not finite or when
    [abs(a) * tiny >= abs(b)]. *)
Definition ma_divide_invalid (a b : float) : bool :=
  negb (is_finite (a / b)) || PrimFloat.leb (abs b) (abs a * tiny).

Definition arith (libm_pow : float -> positive -> float)
    (libm_expf : spec_float -> spec_float) : Arith :=
  {| f64 := float;
     f32 := spec_float;
     lit_6_62606957 := 6.62606957%float;
     lit_1e_34 := 1e-34%float;
     lit_1_3806488 := 1.3806488%float;
     lit_1e_23 := 1e-23%float;
     lit_2_99792458 := 2.99792458%float;
     lit_1e8 := 1e8%float;
     lit_0_000001 := 0.000001%float;
     lit_1 := 1%float;
     lit_2 := 2%float;
     lit_m9 := (-9)%float;
     mul := PrimFloat.mul;
     div := PrimFloat.div;
     pow := libm_pow;
     absolute := abs;
     greater := fun a b => PrimFloat.ltb b a;
     equal := PrimFloat.eqb;
     maximum := np_maximum;
     minimum := np_minimum;
     astype_float32 := fun x => round32 (Prim2SF x);
     astype_float64 := SF2Prim;
     one32 := round32 (Prim2SF 1%float);
     mul32 := SFmul prec32 emax32;
     exp32 := libm_expf;
     sub32 := SFsub prec32 emax32;
     maximum32 := np_maximum32;
     minimum32 := np_minimum32;
     negative32 := fun x => SFltb x (S754_zero false);
     divide_invalid := ma_divide_invalid |}.

End Binary64.

(** ** Reading results *)

(** What a caller sees of one element: its value, or nothing when masked. *)
Definition observe {F} (c : F * bool) : option F :=
  if snd c then None else Some (fst c).

(** The elements of a result in row-major order. *)
Definition entries {F} (r : radiance F) : list (option F) :=
  match r with
  | Float64 x => [Some x]
  | Masked => [None]
  | MaskedArray a => map observe (flat a)
  end.

(** [np.shape] of a result: [()] for a number and for [masked]. *)
Definition np_shape {F} (r : radiance F) : list nat :=
  match r with
  | MaskedArray a => nd_shape a
  | _ => []
  end.

Definition returned_shape {F} (o : raises (radiance F)) : option (list nat) :=
  match o with
  | inr r => Some (np_shape r)
  | inl _ => None
  end.

Definition returned_entries {F} (o : raises (radiance F))
  : option (list (option F)) :=
  match o with
  | inr r => Some (entries r)
  | inl _ => None
  end.

(** The shape law as the specification words it: the original scalar-ness of
    each argument decides. *)
Definition claimed_shape {F} (w : spectral_input F) (temp : temperature_input F)
  : list nat :=
  match w, temp with
  | Wscalar _, Tscalar _ => []
  | Wsequence l, Tscalar _ => [length l]
  | Wscalar _, Tarray a => nd_shape a
  | Wsequence l, Tarray a => nd_shape a ++ [length l]
  end.

(** The shape law of the closing ladder: the lengths after coercion decide. *)
Definition dispatched_shape (S : nat) (T_shape : list nat) : list nat :=
  if S =? 1 then
    if hd 0 T_shape =? 1 then [] else T_shape
  else
    if hd 0 T_shape =? 1 then [S] else T_shape ++ [S].

(** Temperature shapes (after coercion) on which the ladder returns every
    computed element: one temperature, or a 1-D or 2-D array whose first axis
    is not of length 1. *)
Definition regular_shape (T_shape : list nat) : Prop :=
  T_shape = [1] \/
  (hd 0 T_shape <> 1 /\ (length T_shape = 1 \/ length T_shape = 2)).

Section Kernel.

Variable A : Arith.

(** One element of [rad], from one spectral position and one temperature:
    the scalar path through [arg2], [exp_arg], [denom] and [nom / denom]. *)
Definition planck_cell (nom arg1 : f64 A -> f64 A) (w t : f64 A)
  : f64 A * bool :=
  let a2 := mask_sentinel A (reciprocal_or_sentinel A t) in
  let e := mul32 A (astype_float32 A (arg1 w)) (astype_float32 A (fst a2)) in
  ma_true_divide A (nom w) (sub32 A (exp32 A e) (one32 A), snd a2).

(** The [(N, n)] grid of elements, row-major: one row per temperature. *)
Definition planck_grid (nom arg1 : f64 A -> f64 A)
    (ws ts : list (f64 A)) : list (f64 A * bool) :=
  flat_map (fun t => map (fun w => planck_cell nom arg1 w t) ws) ts.

(** One element of [exp_arg]. *)
Definition exp_arg_cell (arg1 : f64 A -> f64 A) (w t : f64 A) : f32 A * bool :=
  let a2 := mask_sentinel A (reciprocal_or_sentinel A t) in
  (mul32 A (astype_float32 A (arg1 w)) (astype_float32 A (fst a2)), snd a2).

Definition exp_arg_grid (arg1 : f64 A -> f64 A)
    (ws ts : list (f64 A)) : list (f32 A * bool) :=
  flat_map (fun t => map (fun w => exp_arg_cell arg1 w t) ws) ts.

(** The test [exp_arg.min() < 0] of [blackbody]. *)
Definition min_negative (cells : list (f32 A * bool)) : bool :=
  match unmasked cells with
  | [] => false
  | x :: r => negative32 A (fold_left (minimum32 A) r x)
  end.

(** [np.where(exp_arg < 0)[0].shape[0]]: the test looks at the stored
    values of the whole grid. *)
Definition dubious_count (cells : list (f32 A * bool)) : nat :=
  length (filter (fun c => negative32 A (fst c)) cells).

(** [rad] of [blackbody_wn] and of [blackbody]. *)
Definition rad_wn (ws : list (f64 A)) (ta : ndarray (f64 A))
  : ndarray (f64 A * bool) :=
  rad_of A (map (nom_wn A) ws)
    (denom_of A (exp_arg_of A (map (arg1_wn A) ws) (arg2_of A ta))).

Definition rad_wl (ws : list (f64 A)) (ta : ndarray (f64 A))
  : ndarray (f64 A * bool) :=
  rad_of A (map (nom_wl A) ws)
    (denom_of A (exp_arg_of A (map (arg1_wl A) ws) (arg2_of A ta))).

(** The denominator [exp(arg1 * (1 / t)) - 1] of a pair, the exponent
    argument and the subtraction in float32. *)
Definition denominator (arg1 : f64 A -> f64 A) (w t : f64 A) : f64 A :=
  let r := div A (lit_1 A) t in
  let e := mul32 A (astype_float32 A (arg1 w)) (astype_float32 A r) in
  astype_float64 A (sub32 A (exp32 A e) (one32 A)).

(** The element of a result as the operations are described: nothing (a
    masked element) for a temperature that is not above [EPSILON] in absolute
    value; otherwise the quotient of [nom] by the denominator, unless the
    reciprocal is the sentinel or numpy.ma finds the division invalid. *)
Definition radiance_element (nom arg1 : f64 A -> f64 A) (w t : f64 A)
  : option (f64 A) :=
  if greater A (absolute A t) (EPSILON A) then
    if equal A (div A (lit_1 A) t) (lit_m9 A)
       || divide_invalid A (nom w) (denominator arg1 w t)
    then None
    else Some (div A (nom w) (denominator arg1 w t))
  else None.

(** A quotient as numpy.ma returns it: [masked] where it finds the division
    invalid. *)
Definition quotient_or_masked (a d : f64 A) : radiance (f64 A) :=
  if divide_invalid A a d then Masked else Float64 (div A a d).

End Kernel.

(** The records of level WARNING, in order. *)
Definition is_warning {F F32} (r : log_record F F32) : bool :=
  match r with
  | WarningDimensions | WarningFishy | WarningDubious _ => true
  | _ => false
  end.

Definition warnings {F F32} (log : list (log_record F F32))
  : list (log_record F F32) :=
  filter is_warning log.

(** A result that is [masked] or a finite number that is not negative. *)
Definition masked_or_not_negative (o : raises (radiance float)) : Prop :=
  o = ret Masked \/
  exists v, o = ret (Float64 v) /\ is_finite v = true
            /\ PrimFloat.ltb v 0%float = false.

(** ** A sample C library

    One choice of the two functions the IEEE interpretation leaves open, to
    run it on concrete inputs: [pow] by repeated multiplication and [expf] by
    [1 + x] in float32.  The theorems stated for every [pow] and [expf] do
    not depend on the choice. *)
Module Sample.

Definition pow (x : float) (p : positive) : float :=
  Pos.iter (PrimFloat.mul x) 1%float p.

Definition expf (x : spec_float) : spec_float :=
  SFadd Binary64.prec32 Binary64.emax32
        (Binary64.round32 (Prim2SF 1%float)) x.

Definition arith : Arith := Binary64.arith pow expf.

(** [expf] that overflows as the C library's does, above the logarithm of
    the largest float32, and is [1 + x] below. *)
Definition expf_overflowing (x : spec_float) : spec_float :=
  if SFltb (Binary64.round32 (Prim2SF 88.72284%float)) x
  then S754_infinity false
  else expf x.

(** The coarsest [expf]: 2 whatever the argument. *)
Definition expf_two (x : spec_float) : spec_float :=
  Binary64.round32 (Prim2SF 2%float).

(** Allocators: one that refuses the product of the [try] block, one that
    refuses the array of [np.exp(exp_arg)]. *)
Definition no_product (a : allocation) (n : nat) : bool :=
  match a with
  | AllocProduct => false
  | _ => true
  end.

Definition no_exp (a : allocation) (n : nat) : bool :=
  match a with
  | AllocExp => false
  | _ => true
  end.

End Sample.

(** ** The array operations on small inputs *)

Example reshape_column_example :
  reshape_column (Ndarray [2; 2] [1; 2; 3; 4]) = Ndarray [4; 1] [1; 2; 3; 4].
Proof. reflexivity. Qed.

Example broadcast_row_column_example :
  broadcast_row_column Nat.add [1; 2; 3] (Ndarray [2; 1] [10; 20])
  = Ndarray [2; 3] [11; 12; 13; 21; 22; 23].
Proof. reflexivity. Qed.

Example broadcast_row_grid_example :
  broadcast_row_grid Nat.mul [1; 2; 3] (Ndarray [2; 3] [1; 1; 1; 2; 2; 2])
  = Ndarray [2; 3] [1; 2; 3; 2; 4; 6].
Proof. reflexivity. Qed.

Example column_example :
  column (Ndarray [2; 3] [1; 2; 3; 4; 5; 6]) 1 = ret (Ndarray [2] [2; 5]).
Proof. reflexivity. Qed.

Example row_example :
  row (Ndarray [2; 3] [1; 2; 3; 4; 5; 6]) 1 = ret (Ndarray [3] [4; 5; 6]).
Proof. reflexivity. Qed.

Example item2_out_of_range :
  item2 (Ndarray [0; 1] ([] : list nat)) 0 0 = raise IndexError.
Proof. reflexivity. Qed.

Example reshape_mismatch :
  reshape (Ndarray [8; 2] (repeat 0 16)) [2; 2; 2] = raise ValueError.
Proof. reflexivity. Qed.

Example astype_float32_example :
  SF2Prim (Binary64.round32 (Prim2SF 0.1%float)) = 0.10000000149011612%float.
Proof. vm_compute. reflexivity. Qed.

Example reciprocal_of_minus_ninth :
  (1 / (-0.1111111111111111))%float = (-9)%float.
Proof. vm_compute. reflexivity. Qed.

(** ** Lists and arrays: auxiliary facts *)

Lemma tile_succ {A} (l : list A) (n : nat) : tile l (S n) = l ++ tile l n.
Proof. reflexivity. Qed.

Lemma combine_app_same {A B} (l1 l2 : list A) (m1 m2 : list B) :
  length l1 = length m1 ->
  combine (l1 ++ l2) (m1 ++ m2) = combine l1 m1 ++ combine l2 m2.
Proof.
  revert m1; induction l1 as [|a l1 IH]; intros [|b m1] Hlen;
    simpl in *; try discriminate; auto.
  f_equal. apply IH. lia.
Qed.

Lemma combine_map_map {A B C} (f : A -> B) (g : A -> C) (l : list A) :
  combine (map f l) (map g l) = map (fun x => (f x, g x)) l.
Proof. induction l; simpl; congruence. Qed.

Lemma length_flat_map_const {A B} (f : A -> list B) (l : list A) (n : nat) :
  (forall x, length (f x) = n) -> length (flat_map f l) = length l * n.
Proof.
  intros Hf. induction l as [|a l IH]; simpl; auto.
  rewrite length_app, Hf, IH. reflexivity.
Qed.

(** Column 0 of a one-column grid is the grid's elements. *)
Lemma column_single {A} (l : list A) :
  flat_map (fun i => firstn 1 (skipn (i * 1 + 0) l)) (seq 0 (length l)) = l.
Proof.
  assert (G : forall (l0 l1 : list A),
             flat_map (fun i => firstn 1 (skipn (i * 1 + 0) (l0 ++ l1)))
                      (seq (length l0) (length l1)) = l1).
  { intros l0 l1; revert l0; induction l1 as [|a l1 IH]; intros l0; simpl; auto.
    replace (length l0 * 1 + 0) with (length l0) by lia.
    rewrite skipn_app, Nat.sub_diag, skipn_all. simpl. f_equal.
    specialize (IH (l0 ++ [a])).
    rewrite <- app_assoc, length_app in IH. simpl in IH.
    rewrite Nat.add_1_r in IH. exact IH. }
  exact (G [] l).
Qed.

Lemma firstn_flat_map_head {A B} (f : A -> list B) (a : A) (l : list A) n :
  length (f a) = n -> firstn n (flat_map f (a :: l)) = f a.
Proof.
  intros <-. simpl. rewrite firstn_app, Nat.sub_diag, firstn_all. simpl.
  apply app_nil_r.
Qed.

(** ** The grid computed by both functions *)

Section Grid.

Variable A : Arith.

Variables nom arg1 : f64 A -> f64 A.

Lemma flat_arg2_of (ta : ndarray (f64 A)) :
  flat (arg2_of A ta) =
  map (fun t => mask_sentinel A (reciprocal_or_sentinel A t)) (flat ta).
Proof. unfold arg2_of, nd_map, reshape_column; simpl. apply map_map. Qed.

Lemma shape_arg2_of (ta : ndarray (f64 A)) :
  nd_shape (arg2_of A ta) = [size_of (nd_shape ta); 1].
Proof. reflexivity. Qed.

Lemma flat_exp_arg_of (ws : list (f64 A)) (ta : ndarray (f64 A)) :
  flat (exp_arg_of A (map arg1 ws) (arg2_of A ta)) =
  exp_arg_grid A arg1 ws (flat ta).
Proof.
  unfold exp_arg_of, broadcast_row_column. cbn [flat nd_map].
  rewrite flat_arg2_of. unfold exp_arg_grid.
  induction (flat ta) as [|t ts IH]; simpl; auto.
  rewrite IH. f_equal.
  rewrite !map_map. apply map_ext. intros w. reflexivity.
Qed.

Lemma shape_exp_arg_of (ws : list (f64 A)) (ta : ndarray (f64 A)) :
  nd_shape (exp_arg_of A (map arg1 ws) (arg2_of A ta)) =
  [size_of (nd_shape ta); length ws].
Proof.
  unfold exp_arg_of, broadcast_row_column; simpl. now rewrite !length_map.
Qed.

Lemma length_exp_arg_grid (ws ts : list (f64 A)) :
  length (exp_arg_grid A arg1 ws ts) = length ts * length ws.
Proof.
  unfold exp_arg_grid. apply length_flat_map_const.
  intros t. apply length_map.
Qed.

Lemma length_planck_grid (ws ts : list (f64 A)) :
  length (planck_grid A nom arg1 ws ts) = length ts * length ws.
Proof.
  unfold planck_grid. apply length_flat_map_const.
  intros t. apply length_map.
Qed.

(** [rad] holds, row by row, the scalar path applied to every pair. *)
Lemma flat_rad_of (ws : list (f64 A)) (ta : ndarray (f64 A)) :
  well_formed ta ->
  flat (rad_of A (map nom ws)
          (denom_of A (exp_arg_of A (map arg1 ws) (arg2_of A ta)))) =
  planck_grid A nom arg1 ws (flat ta).
Proof.
  intros Hwf.
  unfold rad_of, broadcast_row_grid, denom_of. cbn [flat nd_map nd_shape].
  rewrite shape_exp_arg_of. cbn [hd].
  rewrite flat_exp_arg_of, <- Hwf.
  unfold exp_arg_grid, planck_grid.
  induction (flat ta) as [|t ts IH]; simpl; auto.
  rewrite tile_succ, map_app, combine_app_same, map_app
    by now rewrite !length_map.
  rewrite IH. f_equal.
  rewrite map_map, combine_map_map, map_map.
  apply map_ext. intros w. reflexivity.
Qed.

Lemma shape_rad_of (ws : list (f64 A)) (ta : ndarray (f64 A)) :
  nd_shape (rad_of A (map nom ws)
              (denom_of A (exp_arg_of A (map arg1 ws) (arg2_of A ta)))) =
  [size_of (nd_shape ta); length ws].
Proof.
  unfold rad_of, broadcast_row_grid, denom_of. cbn [nd_map nd_shape].
  apply shape_exp_arg_of.
Qed.

End Grid.

Lemma entries_ma_item {F} (c : F * bool) : entries (ma_item c) = [observe c].
Proof. unfold ma_item, observe. now destruct (snd c). Qed.

Lemma np_shape_ma_item {F} (c : F * bool) : np_shape (ma_item c) = [].
Proof. unfold ma_item. now destruct (snd c). Qed.

(** The closing ladder on a grid of the right size: it returns, and what it
    returns has the dispatched shape and holds the whole grid. *)
Lemma select_shape_regular (A : Arith) (ws : list (f64 A))
    (ta : ndarray (f64 A)) (rad : ndarray (f64 A * bool)) :
  regular_shape (nd_shape ta) ->
  nd_shape rad = [size_of (nd_shape ta); length ws] ->
  length (flat rad) = size_of (nd_shape ta) * length ws ->
  exists r, select_shape A ws ta rad = ret r /\
            np_shape r = dispatched_shape (length ws) (nd_shape ta) /\
            entries r = map observe (flat rad).
Proof.
  intros Hreg Hshape Hlen.
  destruct rad as [rsh cells]. simpl in Hshape, Hlen. subst rsh.
  unfold select_shape, dispatched_shape. simpl nd_shape.
  destruct Hreg as [H1 | [Hhd Hrank]].
  - (* one temperature *)
    rewrite H1 in *. simpl in Hlen. simpl hd. 
    destruct (Nat.eqb_spec (length ws) 1) as [Hn | Hn].
    + rewrite Hn in *. destruct cells as [|c [|c' cells]]; try discriminate.
      unfold item2. simpl. eexists. repeat split.
      * apply np_shape_ma_item.
      * apply entries_ma_item.
    + unfold row. simpl. rewrite firstn_all2 by lia.
      eexists. repeat split.
  - destruct (nd_shape ta) as [|s0 rest] eqn:Hsh.
    { destruct Hrank; discriminate. }
    simpl hd in *. destruct (Nat.eqb_spec s0 1) as [|_]; [contradiction|].
    destruct (Nat.eqb_spec (length ws) 1) as [Hn | Hn].
    + rewrite Hn in *. rewrite Nat.mul_1_r in Hlen.
      unfold column. cbn [nd_shape flat]. change (0 <? 1) with true.
      cbv iota. rewrite <- Hlen, column_single.
      unfold reshape, bind, ret. cbn [nd_shape flat].
      replace (size_of [length cells]) with (length cells) by (simpl; lia).
      rewrite <- Hlen, Nat.eqb_refl. eexists. repeat split.
    + destruct rest as [|s1 rest].
      * cbn [length nth Nat.eqb]. unfold reshape, bind, ret.
        cbn [nd_shape flat].
        replace (size_of [s0; length ws] =? size_of [size_of [s0]; length ws])
          with true by (symmetry; apply Nat.eqb_eq; simpl; lia).
        eexists. repeat split.
      * destruct rest as [|s2 rest]; [|destruct Hrank; discriminate].
        cbn [length nth Nat.eqb]. unfold reshape, bind, ret.
        cbn [nd_shape flat].
        replace (size_of [s0; s1; length ws]
                 =? size_of [size_of [s0; s1]; length ws])
          with true by (symmetry; apply Nat.eqb_eq; simpl; lia).
        eexists. repeat split.
Qed.


Lemma ma_reduce_cons {A} (op : A -> A -> A) (c : A * bool)
    (cells : list (A * bool)) :
  ma_reduce op (c :: cells) =
  ret (match unmasked (c :: cells) with
       | [] => None
       | x :: r => Some (fold_left op r x)
       end).
Proof. unfold ma_reduce. now destruct (unmasked (c :: cells)). Qed.

(** ** What the two functions return *)

Section Outcome.

Variable A : Arith.

Lemma blackbody_wn_outcome w temp :
  snd (blackbody_wn A w temp) =
  select_shape A (spectral_array A w) (temperature_array A temp)
    (rad_wn A (spectral_array A w) (temperature_array A temp)).
Proof. reflexivity. Qed.

(** With non-empty arguments [blackbody] reaches the allocation of the
    product, and what it does from there is decided by the allocator. *)
Lemma blackbody_allocating_outcome memory w temp :
  spectral_array A w <> [] ->
  flat (temperature_array A temp) <> [] ->
  let ws := spectral_array A w in
  let ta := temperature_array A temp in
  let n := length ws * length (flat ta) in
  let grid := exp_arg_grid A (arg1_wl A) ws (flat ta) in
  snd (blackbody_allocating A memory w temp) =
    (if memory AllocProduct n then
       if min_negative A grid && negb (memory AllocNegative n)
       then raise MemoryError
       else if memory AllocExp n && memory AllocDenom n && memory AllocRad n
            then select_shape A ws ta (rad_wl A ws ta)
            else raise MemoryError
     else raise MemoryError)
  /\ warnings (fst (blackbody_allocating A memory w temp)) =
     (if memory AllocProduct n then
        if min_negative A grid then
          if memory AllocNegative n
          then [WarningFishy; WarningDubious (dubious_count A grid)]
          else [WarningFishy]
        else []
      else [WarningDimensions]).
Proof.
  intros Hws Hts. cbv zeta. unfold blackbody_allocating.
  set (ws := spectral_array A w) in *.
  set (ta := temperature_array A temp) in *.
  destruct ws as [|w0 ws'] eqn:Ews; [congruence|]. rewrite <- Ews in *.
  assert (R1 : forall op, reduce op (map (arg1_wl A) ws)
                 = inr (fold_left op (map (arg1_wl A) ws') (arg1_wl A w0))).
  { intros op. rewrite Ews. reflexivity. }
  rewrite !R1.
  assert (E2 : exists c cells, flat (arg2_of A ta) = c :: cells).
  { rewrite flat_arg2_of. destruct (flat ta); [congruence|].
    simpl. eauto. }
  destruct E2 as (c2 & cells2 & E2). rewrite E2, !ma_reduce_cons, <- E2.
  unfold ret. cbv beta iota.
  replace (length (flat (arg2_of A ta))) with (length (flat ta))
    by (rewrite flat_arg2_of; now rewrite length_map).
  cbv zeta. set (n := length ws * length (flat ta)).
  destruct (memory AllocProduct n); [|split; reflexivity].
  assert (E3 : exists c cells,
             flat (exp_arg_of A (map (arg1_wl A) ws) (arg2_of A ta))
             = c :: cells).
  { rewrite flat_exp_arg_of.
    destruct (exp_arg_grid A (arg1_wl A) ws (flat ta)) eqn:E; eauto.
    apply (f_equal (@length _)) in E. rewrite length_exp_arg_grid in E.
    rewrite Ews in E. destruct (flat ta); [congruence|]. simpl in E. lia. }
  destruct E3 as (c3 & cells3 & E3).
  rewrite E3, !ma_reduce_cons, <- E3. unfold ret. cbv beta iota.
  rewrite flat_exp_arg_of.
  unfold min_negative, dubious_count.
  destruct (memory AllocNegative n), (memory AllocExp n),
    (memory AllocDenom n), (memory AllocRad n);
    (destruct (unmasked (exp_arg_grid A (arg1_wl A) ws (flat ta))) as [|x r];
     [|destruct (negative32 A (fold_left (minimum32 A) r x))]);
    split; reflexivity.
Qed.

(** With non-empty inputs and enough memory, [blackbody] reaches its closing
    ladder, and its warnings are the two of the dubious-exponent test when
    that test fires. *)
Lemma blackbody_reaches_ladder memory w temp :
  spectral_array A w <> [] ->
  flat (temperature_array A temp) <> [] ->
  memory (length (spectral_array A w)
          * length (flat (temperature_array A temp))) = true ->
  snd (blackbody A memory w temp) =
    select_shape A (spectral_array A w) (temperature_array A temp)
      (rad_wl A (spectral_array A w) (temperature_array A temp))
  /\ warnings (fst (blackbody A memory w temp)) =
     let grid := exp_arg_grid A (arg1_wl A) (spectral_array A w)
                   (flat (temperature_array A temp)) in
     if min_negative A grid
     then [WarningFishy; WarningDubious (dubious_count A grid)]
     else [].
Proof.
  intros Hws Hts Hmem. unfold blackbody.
  destruct (blackbody_allocating_outcome (after_try memory) w temp Hws Hts)
    as [Ho Hw].
  cbv zeta in Ho, Hw. cbn [after_try] in Ho, Hw. rewrite Hmem in Ho, Hw.
  cbn [negb andb] in Ho. rewrite andb_false_r in Ho.
  split; [exact Ho | exact Hw].
Qed.

(** Without enough memory for the product, [blackbody] logs its advice and
    re-raises. *)
Lemma blackbody_out_of_memory memory w temp :
  spectral_array A w <> [] ->
  flat (temperature_array A temp) <> [] ->
  memory (length (spectral_array A w)
          * length (flat (temperature_array A temp))) = false ->
  snd (blackbody A memory w temp) = raise MemoryError
  /\ warnings (fst (blackbody A memory w temp)) = [WarningDimensions].
Proof.
  intros Hws Hts Hmem. unfold blackbody.
  destruct (blackbody_allocating_outcome (after_try memory) w temp Hws Hts)
    as [Ho Hw].
  cbv zeta in Ho, Hw. cbn [after_try] in Ho, Hw. rewrite Hmem in Ho, Hw.
  split; [exact Ho | exact Hw].
Qed.

End Outcome.

Section Regular.

Variable A : Arith.

(** On a regular temperature shape [blackbody_wn] returns the whole grid
    under the dispatched shape. *)
Lemma blackbody_wn_regular w temp :
  well_formed (temperature_array A temp) ->
  regular_shape (nd_shape (temperature_array A temp)) ->
  exists r,
    snd (blackbody_wn A w temp) = ret r /\
    np_shape r = dispatched_shape (length (spectral_array A w))
                   (nd_shape (temperature_array A temp)) /\
    entries r = map observe
                  (planck_grid A (nom_wn A) (arg1_wn A) (spectral_array A w)
                     (flat (temperature_array A temp))).
Proof.
  intros Hwf Hreg. rewrite blackbody_wn_outcome.
  rewrite <- (flat_rad_of A (nom_wn A) (arg1_wn A)) by assumption.
  apply select_shape_regular; trivial.
  - apply shape_rad_of.
  - unfold rad_wn. rewrite flat_rad_of by assumption.
    rewrite length_planck_grid. now rewrite Hwf.
Qed.

(** So does [blackbody], given non-empty inputs and the memory it asks for. *)
Lemma blackbody_regular memory w temp :
  well_formed (temperature_array A temp) ->
  regular_shape (nd_shape (temperature_array A temp)) ->
  spectral_array A w <> [] ->
  flat (temperature_array A temp) <> [] ->
  memory (length (spectral_array A w)
          * length (flat (temperature_array A temp))) = true ->
  exists r,
    snd (blackbody A memory w temp) = ret r /\
    np_shape r = dispatched_shape (length (spectral_array A w))
                   (nd_shape (temperature_array A temp)) /\
    entries r = map observe
                  (planck_grid A (nom_wl A) (arg1_wl A) (spectral_array A w)
                     (flat (temperature_array A temp))).
Proof.
  intros Hwf Hreg Hws Hts Hmem.
  destruct (blackbody_reaches_ladder A memory w temp Hws Hts Hmem) as [-> _].
  rewrite <- (flat_rad_of A (nom_wl A) (arg1_wl A)) by assumption.
  apply select_shape_regular; trivial.
  - apply shape_rad_of.
  - unfold rad_wl. rewrite flat_rad_of by assumption.
    rewrite length_planck_grid. now rewrite Hwf.
Qed.

(** A call on two numbers returns the one element of the scalar path. *)
Lemma blackbody_wn_scalar (w t : f64 A) :
  snd (blackbody_wn A (Wscalar w) (Tscalar t)) =
  ret (ma_item (planck_cell A (nom_wn A) (arg1_wn A) w t)).
Proof. reflexivity. Qed.

Lemma blackbody_scalar memory (w t : f64 A) :
  memory 1 = true ->
  snd (blackbody A memory (Wscalar w) (Tscalar t)) =
  ret (ma_item (planck_cell A (nom_wl A) (arg1_wl A) w t)).
Proof.
  intros Hmem.
  destruct (blackbody_reaches_ladder A memory (Wscalar w) (Tscalar t))
    as [-> _]; try (simpl; congruence).
  reflexivity.
Qed.

End Regular.

(** ** C1: the shape law *)

(** C1 (as amended).  For both operations the shape of the result is a
    function of the lengths after coercion: with [S] the length of the
    spectral argument and [T_shape] the shape of the temperature argument,
    both after a number has become a one-element array, and [T_shape] either
    [(1,)] or 1-D or 2-D with a first axis other than 1, the result is a
    number when [S = 1] and [T_shape = (1,)], has shape [T_shape] when
    [S = 1] and [T_shape[0] <> 1], shape [(S,)] when [S <> 1] and
    [T_shape = (1,)], and shape [T_shape + (S,)] otherwise.  A one-element
    sequence therefore counts as a number.  [blackbody] needs non-empty
    arguments and its product allocated. *)
Theorem shape_law_by_coerced_length (A : Arith) (memory : nat -> bool)
    (w : spectral_input (f64 A)) (temp : temperature_input (f64 A)) :
  well_formed (temperature_array A temp) ->
  regular_shape (nd_shape (temperature_array A temp)) ->
  returned_shape (snd (blackbody_wn A w temp)) =
    Some (dispatched_shape (length (spectral_array A w))
            (nd_shape (temperature_array A temp)))
  /\ (spectral_array A w <> [] ->
      flat (temperature_array A temp) <> [] ->
      memory (length (spectral_array A w)
              * length (flat (temperature_array A temp))) = true ->
      returned_shape (snd (blackbody A memory w temp)) =
        Some (dispatched_shape (length (spectral_array A w))
                (nd_shape (temperature_array A temp)))).
Proof.
  intros Hwf Hreg. split.
  - destruct (blackbody_wn_regular A w temp Hwf Hreg) as (r & -> & <- & _).
    reflexivity.
  - intros Hws Hts Hmem.
    destruct (blackbody_regular A memory w temp Hwf Hreg Hws Hts Hmem)
      as (r & -> & <- & _).
    reflexivity.
Qed.

(** Two wavenumbers (wavelengths) against a 2-by-1 grid of temperatures give
    a 2-by-1-by-2 result. *)
Lemma shape_law_by_coerced_length_witness :
  let temp := Tarray (Ndarray [2; 1] [280; 300]%float) in
  returned_shape
    (snd (blackbody_wn Sample.arith (Wsequence [90000; 100000]%float) temp))
  = Some [2; 1; 2]
  /\ returned_shape
       (snd (blackbody Sample.arith (fun _ => true)
               (Wsequence [0.00001; 0.000011]%float) temp))
     = Some [2; 1; 2].
Proof.
  intros temp.
  assert (Hwf : well_formed (temperature_array Sample.arith temp))
    by reflexivity.
  assert (Hreg : regular_shape (nd_shape (temperature_array Sample.arith temp))).
  { right. simpl. split; [lia | now right]. }
  split.
  - exact (proj1 (shape_law_by_coerced_length Sample.arith (fun _ => true)
                    (Wsequence [90000; 100000]%float) temp Hwf Hreg)).
  - apply (proj2 (shape_law_by_coerced_length Sample.arith (fun _ => true)
                    (Wsequence [0.00001; 0.000011]%float) temp Hwf Hreg));
      simpl; congruence.
Defined.

(** C1 as stated fails: a one-element sequence with a scalar temperature
    should give a 1-D array of length 1, and [blackbody_wn] returns a
    number. *)
Lemma shape_law_original_scalarness_fails :
  returned_shape
    (snd (blackbody_wn Sample.arith (Wsequence [90000%float])
            (Tscalar 280%float)))
  = Some []
  /\ claimed_shape (Wsequence [90000%float]) (Tscalar 280%float) = [1].
Proof.
  split; [|reflexivity].
  destruct (blackbody_wn_regular Sample.arith (Wsequence [90000%float])
              (Tscalar 280%float)) as (r & Hr & Hs & _).
  - reflexivity.
  - now left.
  - rewrite Hr. unfold returned_shape, ret. rewrite Hs. reflexivity.
Qed.

(** ** Temperatures at or below the threshold *)

Lemma observe_none_masked {F} (c : F * bool) :
  observe c = None -> ma_item c = Masked.
Proof. unfold observe, ma_item. now destruct (snd c). Qed.

Section NearZero.

Variable A : Arith.

(** The sentinel compares equal to itself. *)
Hypothesis sentinel_equals_itself : equal A (lit_m9 A) (lit_m9 A) = true.

Lemma planck_cell_near_zero nom arg1 (w t : f64 A) :
  greater A (absolute A t) (EPSILON A) = false ->
  observe (planck_cell A nom arg1 w t) = None.
Proof.
  intros Hle. unfold planck_cell, reciprocal_or_sentinel, mask_sentinel.
  rewrite Hle. cbn [fst snd]. unfold ma_true_divide. cbn [fst snd].
  rewrite sentinel_equals_itself. reflexivity.
Qed.

(** What a caller sees of an element of the grid is the element as the
    operations are described. *)
Lemma observe_planck_cell nom arg1 (w t : f64 A) :
  observe (planck_cell A nom arg1 w t) = radiance_element A nom arg1 w t.
Proof.
  unfold radiance_element.
  destruct (greater A (absolute A t) (EPSILON A)) eqn:Hguard.
  - unfold planck_cell, reciprocal_or_sentinel, mask_sentinel.
    rewrite Hguard. cbn [fst snd]. unfold ma_true_divide, observe, denominator.
    cbn [fst snd].
    now destruct (equal A (div A (lit_1 A) t) (lit_m9 A)
                  || divide_invalid A (nom w) _).
  - now apply planck_cell_near_zero.
Qed.


End NearZero.

(** ** C4: a near-zero temperature in an array of shape (1, k) *)

(** C4.  For a temperature array of shape [(1, 2)] both operations return
    the element of the first temperature alone, a number or [masked]: the
    second temperature, whatever it is, 0 K included, has no position in the
    result, masked or not. *)
Theorem near_zero_entry_without_output (A : Arith) (x t0 t1 : f64 A) :
  let temp := Tarray (Ndarray [1; 2] [t0; t1]) in
  snd (blackbody_wn A (Wscalar x) temp)
  = ret (ma_item (planck_cell A (nom_wn A) (arg1_wn A) x t0))
  /\ snd (blackbody A (fun _ => true) (Wscalar x) temp)
     = ret (ma_item (planck_cell A (nom_wl A) (arg1_wl A) x t0)).
Proof.
  intros temp. split; [reflexivity|].
  destruct (blackbody_reaches_ladder A (fun _ => true) (Wscalar x) temp)
    as [-> _]; try (simpl; congruence).
  reflexivity.
Qed.

(** 900 cm-1 against the temperatures 280 K and 0 K in an array of shape
    [(1, 2)], with the sample library: a number, the radiance at 280 K. *)
Example first_row_of_two_temperatures :
  snd (blackbody_wn Sample.arith (Wscalar 90000%float)
         (Tarray (Ndarray [1; 2] [280; 0]%float)))
  = ret (Float64 0.018774870338293687%float).
Proof. vm_compute. reflexivity. Qed.

(** ** The elements of a result *)



(** The same call by wavenumber, element by element: the row of 0 K is
    masked, the others hold numbers. *)
Example three_temperatures_by_wavenumber :
  option_map (map (fun e => match e with Some _ => true | None => false end))
    (returned_entries
       (snd (blackbody_wn Sample.arith (Wsequence [90000; 100000]%float)
               (Tarray (Ndarray [3] [280; 0; 300]%float)))))
  = Some [true; true; false; false; true; true].
Proof. vm_compute. reflexivity. Qed.

(** And by wavelength. *)
Example three_temperatures_by_wavelength :
  option_map (map (fun e => match e with Some _ => true | None => false end))
    (returned_entries
       (snd (blackbody Sample.arith (fun _ => true)
               (Wsequence [0.00001; 0.000011]%float)
               (Tarray (Ndarray [3] [280; 0; 300]%float)))))
  = Some [true; true; false; false; true; true].
Proof. vm_compute. reflexivity. Qed.

(** ** C5, C2, C3: the sentinel -9 *)

(** C5.  The double nearest to -1/9 passes the guard ([|T| > EPSILON]), its
    reciprocal is exactly -9.0, and both operations return [masked] for it,
    whatever the wavenumber (wavelength) and whatever [pow] and [expf]
    compute. *)
Theorem sentinel_collides_with_reciprocal
    (libm_pow : float -> positive -> float)
    (libm_expf : spec_float -> spec_float) (x : float) :
  let A := Binary64.arith libm_pow libm_expf in
  let T := (-0.1111111111111111)%float in
  greater A (absolute A T) (EPSILON A) = true
  /\ div A (lit_1 A) T = (-9)%float
  /\ snd (blackbody_wn A (Wscalar x) (Tscalar T)) = ret Masked
  /\ snd (blackbody A (fun _ => true) (Wscalar x) (Tscalar T)) = ret Masked.
Proof.
  intros A T. split; [|split; [|split]].
  - vm_compute. reflexivity.
  - vm_compute. reflexivity.
  - rewrite blackbody_wn_scalar. unfold ma_item.
    replace (snd (planck_cell A (nom_wn A) (arg1_wn A) x T)) with true
      by (vm_compute; reflexivity).
    reflexivity.
  - rewrite blackbody_scalar by reflexivity. unfold ma_item.
    replace (snd (planck_cell A (nom_wl A) (arg1_wl A) x T)) with true
      by (vm_compute; reflexivity).
    reflexivity.
Qed.

(** C2.  At the temperature -0.1111111111111111, the double nearest to -1/9
    and above the threshold in absolute value, [blackbody_wn] returns
    [masked], not the value of the formula, whatever the wavenumber and
    whatever [pow] and [expf] compute. *)
Theorem wavenumber_formula_masked_at_minus_ninth
    (libm_pow : float -> positive -> float)
    (libm_expf : spec_float -> spec_float) (x : float) :
  let A := Binary64.arith libm_pow libm_expf in
  let T := (-0.1111111111111111)%float in
  greater A (absolute A T) (EPSILON A) = true
  /\ snd (blackbody_wn A (Wscalar x) (Tscalar T)) = ret Masked.
Proof.
  intros A T. split; [vm_compute; reflexivity|].
  rewrite blackbody_wn_scalar. apply f_equal, observe_none_masked.
  rewrite observe_planck_cell by (vm_compute; reflexivity).
  unfold radiance_element.
  replace (greater A (absolute A T) (EPSILON A)) with true
    by (vm_compute; reflexivity).
  cbv zeta.
  replace (equal A (div A (lit_1 A) T) (lit_m9 A)) with true
    by (vm_compute; reflexivity).
  reflexivity.
Qed.

(** C3.  The same for [blackbody], whatever the wavelength. *)
Theorem wavelength_formula_masked_at_minus_ninth
    (libm_pow : float -> positive -> float)
    (libm_expf : spec_float -> spec_float) (x : float) :
  let A := Binary64.arith libm_pow libm_expf in
  let T := (-0.1111111111111111)%float in
  greater A (absolute A T) (EPSILON A) = true
  /\ snd (blackbody A (fun _ => true) (Wscalar x) (Tscalar T)) = ret Masked.
Proof.
  intros A T. split; [vm_compute; reflexivity|].
  rewrite blackbody_scalar by reflexivity.
  apply f_equal, observe_none_masked.
  rewrite observe_planck_cell by (vm_compute; reflexivity).
  unfold radiance_element.
  replace (greater A (absolute A T) (EPSILON A)) with true
    by (vm_compute; reflexivity).
  cbv zeta.
  replace (equal A (div A (lit_1 A) T) (lit_m9 A)) with true
    by (vm_compute; reflexivity).
  reflexivity.
Qed.

(** ** A first temperature axis of length 1 *)

(** When the temperature array's first axis has length 1 the ladder takes
    the [rad[0, 0]] or [rad[0, :]] branch: it returns row 0 of the grid. *)
Lemma select_shape_first_axis_one (A : Arith) (ws : list (f64 A))
    (ta : ndarray (f64 A)) (rad : ndarray (f64 A * bool)) (rest : list nat) :
  nd_shape ta = 1 :: rest ->
  nd_shape rad = [size_of (nd_shape ta); length ws] ->
  size_of (nd_shape ta) <> 0 ->
  length (flat rad) = size_of (nd_shape ta) * length ws ->
  exists r, select_shape A ws ta rad = ret r /\
            np_shape r = (if length ws =? 1 then [] else [length ws]) /\
            entries r = map observe (firstn (length ws) (flat rad)).
Proof.
  intros Hsh Hrad Hsize Hlen.
  destruct rad as [rsh cells]. simpl in Hrad, Hlen. subst rsh.
  unfold select_shape. cbn [nd_shape flat]. rewrite Hsh.
  change (1 =? 1) with true. cbv iota. rewrite <- Hsh.
  destruct (Nat.eqb_spec (length ws) 1) as [Hn | Hn].
  - rewrite Hn in *. unfold item2. cbn [nd_shape flat].
    destruct (Nat.ltb_spec 0 (size_of (nd_shape ta))) as [_|]; [|lia].
    destruct cells as [|c cells]; [simpl in Hlen; lia|].
    simpl. eexists. repeat split.
    + apply np_shape_ma_item.
    + apply entries_ma_item.
  - unfold row. cbn [nd_shape flat].
    destruct (Nat.ltb_spec 0 (size_of (nd_shape ta))) as [_|]; [|lia].
    simpl. eexists. repeat split.
Qed.

(** For a temperature array whose first axis has length 1, such as one of
    shape [(1, k)], both operations return the elements of the first
    temperature only: a number for one spectral position, a 1-D array
    otherwise. *)
Theorem first_axis_of_length_one_keeps_first_row (A : Arith)
    (memory : nat -> bool) (w : spectral_input (f64 A))
    (temp : temperature_input (f64 A)) (rest : list nat)
    (t0 : f64 A) (ts : list (f64 A)) :
  well_formed (temperature_array A temp) ->
  nd_shape (temperature_array A temp) = 1 :: rest ->
  flat (temperature_array A temp) = t0 :: ts ->
  (exists r,
      snd (blackbody_wn A w temp) = ret r /\
      entries r = map (fun x => observe
                                  (planck_cell A (nom_wn A) (arg1_wn A) x t0))
                      (spectral_array A w))
  /\ (spectral_array A w <> [] ->
      memory (length (spectral_array A w) * S (length ts)) = true ->
      exists r,
        snd (blackbody A memory w temp) = ret r /\
        entries r = map (fun x => observe
                                    (planck_cell A (nom_wl A) (arg1_wl A) x t0))
                        (spectral_array A w)).
Proof.
  intros Hwf Hsh Hflat.
  assert (Hsize : size_of (nd_shape (temperature_array A temp)) <> 0).
  { rewrite <- Hwf, Hflat. simpl. lia. }
  assert (Hrow : forall nom arg1,
             firstn (length (spectral_array A w))
               (planck_grid A nom arg1 (spectral_array A w) (t0 :: ts))
             = map (fun x => planck_cell A nom arg1 x t0)
                 (spectral_array A w)).
  { intros nom arg1. unfold planck_grid.
    apply (firstn_flat_map_head
             (fun t => map (fun x => planck_cell A nom arg1 x t)
                         (spectral_array A w))).
    apply length_map. }
  split.
  - rewrite blackbody_wn_outcome.
    destruct (select_shape_first_axis_one A (spectral_array A w)
                (temperature_array A temp)
                (rad_wn A (spectral_array A w) (temperature_array A temp))
                rest Hsh) as (r & Hr & _ & He); trivial.
    + apply shape_rad_of.
    + unfold rad_wn. rewrite flat_rad_of by assumption.
      rewrite length_planck_grid. now rewrite Hwf.
    + exists r. split; [exact Hr|]. rewrite He. unfold rad_wn.
      rewrite flat_rad_of, Hflat, Hrow by assumption. now rewrite map_map.
  - intros Hws Hmem.
    destruct (blackbody_reaches_ladder A memory w temp Hws) as [-> _].
    { rewrite Hflat. discriminate. }
    { rewrite Hflat. exact Hmem. }
    destruct (select_shape_first_axis_one A (spectral_array A w)
                (temperature_array A temp)
                (rad_wl A (spectral_array A w) (temperature_array A temp))
                rest Hsh) as (r & Hr & _ & He); trivial.
    + apply shape_rad_of.
    + unfold rad_wl. rewrite flat_rad_of by assumption.
      rewrite length_planck_grid. now rewrite Hwf.
    + exists r. split; [exact Hr|]. rewrite He. unfold rad_wl.
      rewrite flat_rad_of, Hflat, Hrow by assumption. now rewrite map_map.
Qed.

(** Two temperatures in an array of shape [(1, 2)]: the second is dropped. *)
Lemma first_axis_of_length_one_keeps_first_row_witness :
  let A := Sample.arith in
  let temp := Tarray (Ndarray [1; 2] [280; 300]%float) in
  (exists r,
      snd (blackbody_wn A (Wscalar 90000%float) temp) = ret r /\
      entries r = [observe (planck_cell A (nom_wn A) (arg1_wn A)
                              90000%float 280%float)])
  /\ (exists r,
      snd (blackbody A (fun _ => true) (Wscalar 0.00001%float) temp) = ret r /\
      entries r = [observe (planck_cell A (nom_wl A) (arg1_wl A)
                              0.00001%float 280%float)]).
Proof.
  intros A temp. split.
  - apply (proj1 (first_axis_of_length_one_keeps_first_row A (fun _ => true)
                    (Wscalar 90000%float) temp [2] 280%float [300%float]
                    eq_refl eq_refl eq_refl)).
  - apply (proj2 (first_axis_of_length_one_keeps_first_row A (fun _ => true)
                    (Wscalar 0.00001%float) temp [2] 280%float [300%float]
                    eq_refl eq_refl eq_refl));
      [simpl; congruence | reflexivity].
Defined.

(** ** 0 K in IEEE arithmetic *)

(** [radiance_by_wavenumber(x, 0.0)] and [radiance_by_wavelength(x, 0.0)]
    are [masked], whatever [x], [pow] and [expf]. *)
Theorem zero_kelvin_is_masked
    (libm_pow : float -> positive -> float)
    (libm_expf : spec_float -> spec_float) (x : float) :
  let A := Binary64.arith libm_pow libm_expf in
  snd (blackbody_wn A (Wscalar x) (Tscalar 0%float)) = ret Masked
  /\ snd (blackbody A (fun _ => true) (Wscalar x) (Tscalar 0%float))
     = ret Masked.
Proof.
  intros A.
  assert (Hsent : equal A (lit_m9 A) (lit_m9 A) = true)
    by (vm_compute; reflexivity).
  assert (Hguard : greater A (absolute A 0%float) (EPSILON A) = false)
    by (vm_compute; reflexivity).
  split.
  - rewrite blackbody_wn_scalar.
    pose proof (planck_cell_near_zero A Hsent (nom_wn A) (arg1_wn A)
                  x 0%float Hguard) as H.
    unfold observe in H. unfold ma_item.
    destruct (snd (planck_cell A _ _ _ _)); [reflexivity | discriminate].
  - rewrite blackbody_scalar by reflexivity.
    pose proof (planck_cell_near_zero A Hsent (nom_wl A) (arg1_wl A)
                  x 0%float Hguard) as H.
    unfold observe in H. unfold ma_item.
    destruct (snd (planck_cell A _ _ _ _)); [reflexivity | discriminate].
Qed.

(** ** Empty arguments *)

Lemma planck_grid_no_positions (A : Arith) nom arg1 (ts : list (f64 A)) :
  planck_grid A nom arg1 [] ts = [].
Proof. unfold planck_grid. induction ts; simpl; auto. Qed.

(** With an empty spectral sequence or an empty temperature array
    [blackbody_wn] returns an empty array, while [blackbody] raises
    [ValueError] from the [max()] of its debug records, without a warning. *)
Theorem empty_input_returns_empty_or_raises (A : Arith)
    (memory : nat -> bool) (w : spectral_input (f64 A))
    (temp : temperature_input (f64 A)) :
  well_formed (temperature_array A temp) ->
  regular_shape (nd_shape (temperature_array A temp)) ->
  spectral_array A w = [] \/ flat (temperature_array A temp) = [] ->
  (exists r,
      snd (blackbody_wn A w temp) = ret r /\
      entries r = [] /\
      np_shape r = dispatched_shape (length (spectral_array A w))
                     (nd_shape (temperature_array A temp)))
  /\ snd (blackbody A memory w temp) = raise ValueError
  /\ warnings (fst (blackbody A memory w temp)) = [].
Proof.
  intros Hwf Hreg Hempty. split.
  - destruct (blackbody_wn_regular A w temp Hwf Hreg) as (r & Hr & Hs & He).
    exists r. repeat split; trivial.
    rewrite He. destruct Hempty as [-> | ->].
    + now rewrite planck_grid_no_positions.
    + reflexivity.
  - unfold blackbody, blackbody_allocating.
    destruct (spectral_array A w) as [|w0 ws] eqn:Ews.
    + split; reflexivity.
    + destruct Hempty as [Hx | Hts]; [discriminate|].
      assert (E2 : flat (arg2_of A (temperature_array A temp)) = []).
      { rewrite flat_arg2_of, Hts. reflexivity. }
      simpl reduce. rewrite E2. split; reflexivity.
Qed.

(** No wavenumber at all, one temperature. *)
Lemma empty_input_returns_empty_or_raises_witness :
  let A := Sample.arith in
  let w := Wsequence [] in
  let temp := Tscalar 280%float in
  (exists r,
      snd (blackbody_wn A w temp) = ret r /\
      entries r = [] /\ np_shape r = [0])
  /\ snd (blackbody A (fun _ => true) w temp) = raise ValueError
  /\ warnings (fst (blackbody A (fun _ => true) w temp)) = [].
Proof.
  intros A w temp.
  apply (empty_input_returns_empty_or_raises A (fun _ => true) w temp).
  - reflexivity.
  - now left.
  - now left.
Defined.

(** ** Temperature arrays of other ranks *)

Lemma select_shape_rank_zero (A : Arith) (ws : list (f64 A))
    (ta : ndarray (f64 A)) (rad : ndarray (f64 A * bool)) :
  nd_shape ta = [] -> select_shape A ws ta rad = raise IndexError.
Proof.
  intros Hsh. unfold select_shape. rewrite Hsh.
  now destruct (length ws =? 1).
Qed.

Lemma select_shape_single_position (A : Arith) (ws : list (f64 A))
    (ta : ndarray (f64 A)) (rad : ndarray (f64 A * bool)) s0 rest :
  length ws = 1 ->
  nd_shape ta = s0 :: rest -> s0 <> 1 ->
  nd_shape rad = [size_of (nd_shape ta); length ws] ->
  length (flat rad) = size_of (nd_shape ta) * length ws ->
  select_shape A ws ta rad
  = ret (MaskedArray (Ndarray (nd_shape ta) (flat rad))).
Proof.
  intros Hn Hsh Hs0 Hrad Hlen.
  destruct rad as [rsh cells]. simpl in Hrad, Hlen. subst rsh.
  unfold select_shape. cbn [nd_shape flat]. rewrite Hn in *.
  rewrite Nat.mul_1_r in Hlen.
  change (1 =? 1) with true. cbv iota. rewrite Hsh.
  destruct (Nat.eqb_spec s0 1) as [|_]; [contradiction|].
  rewrite <- Hsh.
  unfold column. cbn [nd_shape flat]. change (0 <? 1) with true.
  cbv iota. rewrite <- Hlen, column_single.
  unfold reshape, bind, ret. cbn [nd_shape flat].
  replace (size_of [length cells]) with (length cells) by (simpl; lia).
  now rewrite <- Hlen, Nat.eqb_refl.
Qed.

Lemma select_shape_rank_three (A : Arith) (ws : list (f64 A))
    (ta : ndarray (f64 A)) (rad : ndarray (f64 A * bool)) s0 s1 rest :
  nd_shape ta = s0 :: s1 :: rest ->
  s0 <> 1 -> s0 <> 0 -> s1 <> 0 -> size_of rest <> 1 ->
  length ws <> 1 -> length ws <> 0 ->
  nd_shape rad = [size_of (nd_shape ta); length ws] ->
  select_shape A ws ta rad = raise ValueError.
Proof.
  intros Hsh Hs0 Hz0 Hz1 Hrest Hn Hn0 Hrad.
  destruct rad as [rsh cells]. simpl in Hrad. subst rsh.
  unfold select_shape. cbn [nd_shape flat]. rewrite Hsh.
  destruct (Nat.eqb_spec (length ws) 1) as [|_]; [contradiction|].
  destruct (Nat.eqb_spec s0 1) as [|_]; [contradiction|].
  cbn [length nth Nat.eqb].
  destruct rest as [|s2 rest]; [simpl in Hrest; congruence|].
  cbn [length Nat.eqb]. unfold reshape, bind. cbn [nd_shape flat].
  destruct (Nat.eqb_spec (size_of [s0; s1; length ws])
              (size_of [size_of (s0 :: s1 :: s2 :: rest); length ws]))
    as [E|_]; [|reflexivity].
  exfalso. simpl in E. rewrite !Nat.mul_1_r in E.
  change (fold_right Nat.mul 1 rest) with (size_of rest) in E.
  simpl in Hrest. change (fold_right Nat.mul 1 rest) with (size_of rest) in Hrest.
  remember (s2 * size_of rest) as p.
  assert (Hp : s0 * (s1 * length ws) = s0 * (s1 * length ws) * p) by nia.
  assert (Hpos : s0 * (s1 * length ws) <> 0) by nia.
  assert (p = 1) by nia. congruence.
Qed.

Section Ranks.

Variable A : Arith.

Lemma length_flat_rad_wn (ws : list (f64 A)) (ta : ndarray (f64 A)) :
  well_formed ta ->
  length (flat (rad_wn A ws ta)) = size_of (nd_shape ta) * length ws.
Proof.
  intros Hwf. unfold rad_wn. rewrite flat_rad_of by assumption.
  rewrite length_planck_grid. now rewrite Hwf.
Qed.

Lemma length_flat_rad_wl (ws : list (f64 A)) (ta : ndarray (f64 A)) :
  well_formed ta ->
  length (flat (rad_wl A ws ta)) = size_of (nd_shape ta) * length ws.
Proof.
  intros Hwf. unfold rad_wl. rewrite flat_rad_of by assumption.
  rewrite length_planck_grid. now rewrite Hwf.
Qed.

End Ranks.

(** With one spectral position, a temperature array of any rank whose first
    axis is not of length 1 gives a result of the temperature's shape holding
    one element per temperature ([rad[:, 0].reshape(shape)]). *)
Theorem single_position_keeps_temperature_shape (A : Arith)
    (memory : nat -> bool) (w : spectral_input (f64 A))
    (temp : temperature_input (f64 A)) (s0 : nat) (rest : list nat) :
  length (spectral_array A w) = 1 ->
  well_formed (temperature_array A temp) ->
  nd_shape (temperature_array A temp) = s0 :: rest ->
  s0 <> 1 ->
  (exists r,
      snd (blackbody_wn A w temp) = ret r /\
      np_shape r = nd_shape (temperature_array A temp) /\
      entries r = map observe
                    (planck_grid A (nom_wn A) (arg1_wn A) (spectral_array A w)
                       (flat (temperature_array A temp))))
  /\ (flat (temperature_array A temp) <> [] ->
      memory (length (spectral_array A w)
              * length (flat (temperature_array A temp))) = true ->
      exists r,
        snd (blackbody A memory w temp) = ret r /\
        np_shape r = nd_shape (temperature_array A temp) /\
        entries r = map observe
                      (planck_grid A (nom_wl A) (arg1_wl A)
                         (spectral_array A w)
                         (flat (temperature_array A temp)))).
Proof.
  intros Hn Hwf Hsh Hs0. split.
  - rewrite blackbody_wn_outcome.
    rewrite (select_shape_single_position A _ _ _ s0 rest Hn Hsh Hs0).
    + eexists. split; [reflexivity|]. split; [reflexivity|].
      cbn [entries flat]. unfold rad_wn. now rewrite flat_rad_of.
    + apply shape_rad_of.
    + now apply length_flat_rad_wn.
  - intros Hts Hmem.
    destruct (blackbody_reaches_ladder A memory w temp) as [-> _]; trivial.
    { intros E. rewrite E in Hn. discriminate. }
    rewrite (select_shape_single_position A _ _ _ s0 rest Hn Hsh Hs0).
    + eexists. split; [reflexivity|]. split; [reflexivity|].
      cbn [entries flat]. unfold rad_wl. now rewrite flat_rad_of.
    + apply shape_rad_of.
    + now apply length_flat_rad_wl.
Qed.

(** One spectral position against a 2-by-1-by-2 block of temperatures. *)
Lemma single_position_keeps_temperature_shape_witness :
  let A := Sample.arith in
  let temp := Tarray (Ndarray [2; 1; 2] [250; 260; 270; 280]%float) in
  (exists r,
      snd (blackbody_wn A (Wscalar 90000%float) temp) = ret r /\
      np_shape r = [2; 1; 2] /\
      entries r = map observe
                    (planck_grid A (nom_wn A) (arg1_wn A) [90000%float]
                       [250; 260; 270; 280]%float))
  /\ (exists r,
      snd (blackbody A (fun _ => true) (Wscalar 0.00001%float) temp) = ret r /\
      np_shape r = [2; 1; 2] /\
      entries r = map observe
                    (planck_grid A (nom_wl A) (arg1_wl A) [0.00001%float]
                       [250; 260; 270; 280]%float)).
Proof.
  intros A temp.
  assert (Hs0 : 2 <> 1) by lia.
  split.
  - apply (proj1 (single_position_keeps_temperature_shape A (fun _ => true)
                    (Wscalar 90000%float) temp 2 [1; 2]
                    eq_refl eq_refl eq_refl Hs0)).
  - apply (proj2 (single_position_keeps_temperature_shape A (fun _ => true)
                    (Wscalar 0.00001%float) temp 2 [1; 2]
                    eq_refl eq_refl eq_refl Hs0));
      [simpl; congruence | reflexivity].
Defined.

(** The ladder is written for temperatures of rank 1 and 2.  A 0-d
    temperature array makes both operations raise [IndexError]
    ([temperature.shape[0]]); with several spectral positions, an array of
    rank 3 or more whose axes after the second hold more than one element
    makes them raise [ValueError] (the reshape to
    [(shape[0], shape[1], n)]). *)
Theorem unsupported_temperature_ranks_raise (A : Arith)
    (memory : nat -> bool) (w : spectral_input (f64 A))
    (temp : temperature_input (f64 A)) :
  well_formed (temperature_array A temp) ->
  spectral_array A w <> [] ->
  flat (temperature_array A temp) <> [] ->
  memory (length (spectral_array A w)
          * length (flat (temperature_array A temp))) = true ->
  (nd_shape (temperature_array A temp) = [] ->
   snd (blackbody_wn A w temp) = raise IndexError /\
   snd (blackbody A memory w temp) = raise IndexError)
  /\ (forall s0 s1 rest,
        nd_shape (temperature_array A temp) = s0 :: s1 :: rest ->
        s0 <> 1 -> size_of rest <> 1 ->
        length (spectral_array A w) <> 1 ->
        snd (blackbody_wn A w temp) = raise ValueError /\
        snd (blackbody A memory w temp) = raise ValueError).
Proof.
  intros Hwf Hws Hts Hmem.
  destruct (blackbody_reaches_ladder A memory w temp Hws Hts Hmem) as [-> _].
  rewrite blackbody_wn_outcome. split.
  - intros Hsh. split; now apply select_shape_rank_zero.
  - intros s0 s1 rest Hsh Hs0 Hrest Hn.
    assert (Hn0 : length (spectral_array A w) <> 0).
    { destruct (spectral_array A w); [congruence | discriminate]. }
    assert (Hsize : size_of (s0 :: s1 :: rest) <> 0).
    { rewrite <- Hsh, <- Hwf.
      destruct (flat (temperature_array A temp)); [congruence | discriminate]. }
    assert (Hz : s0 <> 0 /\ s1 <> 0).
    { simpl in Hsize. split; intros ->; simpl in Hsize; lia. }
    destruct Hz as [Hz0 Hz1].
    split; apply (select_shape_rank_three A _ _ _ s0 s1 rest);
      trivial; apply shape_rad_of.
Qed.

(** A 0-d temperature, and two wavenumbers against a 2-by-2-by-2 block. *)
Lemma unsupported_temperature_ranks_raise_witness :
  let A := Sample.arith in
  let zero_d := Tarray (Ndarray [] [280%float]) in
  let block :=
    Tarray (Ndarray [2; 2; 2]
              [210; 220; 230; 240; 250; 260; 270; 280]%float) in
  (snd (blackbody_wn A (Wscalar 90000%float) zero_d) = raise IndexError /\
   snd (blackbody A (fun _ => true) (Wscalar 90000%float) zero_d)
   = raise IndexError)
  /\ (snd (blackbody_wn A (Wsequence [90000; 100000]%float) block)
      = raise ValueError /\
      snd (blackbody A (fun _ => true) (Wsequence [90000; 100000]%float) block)
      = raise ValueError).
Proof.
  intros A zero_d block. split.
  - apply (unsupported_temperature_ranks_raise A (fun _ => true)
             (Wscalar 90000%float) zero_d); try reflexivity; simpl; congruence.
  - apply (unsupported_temperature_ranks_raise A (fun _ => true)
             (Wsequence [90000; 100000]%float) block) with (s0 := 2) (s1 := 2)
            (rest := [2]); try reflexivity; simpl; try congruence; lia.
Defined.

(** ** The result as an array *)

(** On the shapes the ladder is written for, the number of elements returned
    is the product of the returned shape, and it is one element per
    (temperature, spectral position) pair. *)
Theorem result_has_one_element_per_pair (A : Arith) (memory : nat -> bool)
    (w : spectral_input (f64 A)) (temp : temperature_input (f64 A)) :
  well_formed (temperature_array A temp) ->
  regular_shape (nd_shape (temperature_array A temp)) ->
  (exists r,
      snd (blackbody_wn A w temp) = ret r /\
      length (entries r) = size_of (np_shape r) /\
      length (entries r) = length (flat (temperature_array A temp))
                           * length (spectral_array A w))
  /\ (spectral_array A w <> [] ->
      flat (temperature_array A temp) <> [] ->
      memory (length (spectral_array A w)
              * length (flat (temperature_array A temp))) = true ->
      exists r,
        snd (blackbody A memory w temp) = ret r /\
        length (entries r) = size_of (np_shape r) /\
        length (entries r) = length (flat (temperature_array A temp))
                             * length (spectral_array A w)).
Proof.
  intros Hwf Hreg.
  assert (Hsize : forall n,
             size_of (dispatched_shape n (nd_shape (temperature_array A temp)))
             = length (flat (temperature_array A temp)) * n).
  { intros n. rewrite Hwf. unfold dispatched_shape.
    destruct Hreg as [-> | [Hhd Hrank]].
    - simpl. destruct (Nat.eqb_spec n 1) as [-> | _]; simpl; lia.
    - destruct (nd_shape (temperature_array A temp)) as [|s0 [|s1 [|s2 rest]]];
        simpl in Hrank, Hhd; try (destruct Hrank; discriminate).
      + cbn [hd]. destruct (Nat.eqb_spec s0 1) as [|_]; [contradiction|].
        destruct (Nat.eqb_spec n 1) as [-> | _]; simpl; ring.
      + cbn [hd]. destruct (Nat.eqb_spec s0 1) as [|_]; [contradiction|].
        destruct (Nat.eqb_spec n 1) as [-> | _]; simpl; ring. }
  split.
  - destruct (blackbody_wn_regular A w temp Hwf Hreg) as (r & Hr & Hs & He).
    exists r. split; [exact Hr|].
    rewrite Hs, He, length_map, length_planck_grid, Hsize. split; reflexivity.
  - intros Hws Hts Hmem.
    destruct (blackbody_regular A memory w temp Hwf Hreg Hws Hts Hmem)
      as (r & Hr & Hs & He).
    exists r. split; [exact Hr|].
    rewrite Hs, He, length_map, length_planck_grid, Hsize. split; reflexivity.
Qed.

(** Three wavenumbers against a 2-by-2 grid of temperatures: 12 elements. *)
Lemma result_has_one_element_per_pair_witness :
  let A := Sample.arith in
  let temp := Tarray (Ndarray [2; 2] [250; 260; 270; 280]%float) in
  (exists r,
      snd (blackbody_wn A (Wsequence [80000; 90000; 100000]%float) temp)
      = ret r /\
      length (entries r) = size_of (np_shape r) /\
      length (entries r) = 4 * 3)
  /\ (exists r,
      snd (blackbody A (fun _ => true)
             (Wsequence [0.000010; 0.000011; 0.000012]%float) temp) = ret r /\
      length (entries r) = size_of (np_shape r) /\
      length (entries r) = 4 * 3).
Proof.
  intros A temp.
  assert (Hwf : well_formed (temperature_array A temp)) by reflexivity.
  assert (Hreg : regular_shape (nd_shape (temperature_array A temp))).
  { right. simpl. split; [lia | now right]. }
  split.
  - apply (proj1 (result_has_one_element_per_pair A (fun _ => true)
                    (Wsequence [80000; 90000; 100000]%float) temp Hwf Hreg)).
  - apply (proj2 (result_has_one_element_per_pair A (fun _ => true)
                    (Wsequence [0.000010; 0.000011; 0.000012]%float) temp
                    Hwf Hreg)); simpl; congruence.
Defined.

(** ** Signs in IEEE arithmetic *)

Section SignClear.

Variables prec emax : Z.

Lemma binary_round_aux_sign_clear m e l :
  Binary64.sign_clear (binary_round_aux prec emax false m e l) = true.
Proof.
  unfold binary_round_aux.
  destruct (shr_fexp prec emax m e l) as [mrs' e'].
  destruct (shr_fexp prec emax _ e' loc_Exact) as [mrs'' e''].
  destruct (shr_m mrs''); [reflexivity | | reflexivity].
  now destruct (Z.leb e'' (emax - prec)).
Qed.

Lemma binary_round_sign_clear m e :
  Binary64.sign_clear (binary_round prec emax false m e) = true.
Proof.
  unfold binary_round. destruct (shl_align _ _ _) as [mz ez].
  apply binary_round_aux_sign_clear.
Qed.

Lemma binary_normalize_sign_clear m e :
  (0 <= m)%Z ->
  Binary64.sign_clear (binary_normalize prec emax m e false) = true.
Proof.
  intros Hm. destruct m as [|p|p]; simpl; [reflexivity | | lia].
  apply binary_round_sign_clear.
Qed.

(** Products and quotients of floats with a clear sign bit have one. *)
Lemma SFmul_sign_clear x y :
  Binary64.sign_clear x = true -> Binary64.sign_clear y = true ->
  Binary64.sign_clear (SFmul prec emax x y) = true.
Proof.
  destruct x as [[|]|[|]| |[|] mx ex], y as [[|]|[|]| |[|] my ey];
    simpl; intros Hx Hy; try discriminate; try reflexivity.
  apply binary_round_aux_sign_clear.
Qed.

Lemma SFdiv_sign_clear x y :
  Binary64.sign_clear x = true -> Binary64.sign_clear y = true ->
  Binary64.sign_clear (SFdiv prec emax x y) = true.
Proof.
  destruct x as [[|]|[|]| |[|] mx ex], y as [[|]|[|]| |[|] my ey];
    simpl; intros Hx Hy; try discriminate; try reflexivity.
  destruct (SFdiv_core_binary prec emax (Zpos mx) ex (Zpos my) ey)
    as [[mz ez] lz].
  apply binary_round_aux_sign_clear.
Qed.

Lemma SFldexp_sign_clear x e :
  Binary64.sign_clear x = true ->
  Binary64.sign_clear (SFldexp prec emax x e) = true.
Proof.
  destruct x as [[|]|[|]| |[|] mx ex]; simpl; intros Hx;
    try discriminate; try reflexivity.
  apply binary_round_sign_clear.
Qed.

End SignClear.

Lemma round32_sign_clear x :
  Binary64.sign_clear x = true ->
  Binary64.sign_clear (Binary64.round32 x) = true.
Proof.
  destruct x as [[|]|[|]| |[|] mx ex]; simpl; intros Hx;
    try discriminate; try reflexivity.
  apply binary_round_sign_clear.
Qed.

(** What is above a float with a clear sign bit has one. *)
Lemma SFltb_sign_clear y x :
  Binary64.sign_clear y = true -> SFltb y x = true ->
  Binary64.sign_clear x = true.
Proof.
  destruct y as [[|]|[|]| |[|] my ey], x as [[|]|[|]| |[|] mx ex];
    cbn [Binary64.sign_clear negb]; intros Hx Hy;
    try discriminate; try reflexivity.
Qed.

Lemma sign_clear_not_negative x :
  Binary64.sign_clear x = true -> SFltb x (S754_zero false) = false.
Proof.
  destruct x as [[|]|[|]| |[|] mx ex]; simpl; intros Hx;
    try discriminate; reflexivity.
Qed.

(** A float above a threshold in absolute value and not below the opposite
    of the threshold has its sign bit clear. *)
Lemma above_threshold_sign_clear (me : positive) (ee : Z) (s : spec_float) :
  SFltb (S754_finite false me ee) (SFabs s) = true ->
  SFltb s (S754_finite true me ee) = false ->
  Binary64.sign_clear s = true.
Proof.
  destruct s as [[|]|[|]| |[|] m e]; cbn [Binary64.sign_clear negb SFabs];
    intros Habove Hbelow; try discriminate; try reflexivity.
  exfalso. unfold SFltb, SFcompare in *.
  rewrite (Z.compare_antisym ee e) in Hbelow.
  destruct (Z.compare ee e); cbn [CompOpp] in Hbelow; try discriminate.
  rewrite Pos.compare_cont_antisym in Hbelow. cbn [CompOpp] in Hbelow.
  destruct (Pos.compare_cont Eq me m); discriminate.
Qed.

Lemma SFabs_sign_clear (s : spec_float) :
  Binary64.sign_clear s = true -> SFabs s = s.
Proof. destruct s as [[|]|[|]| |[|] m e]; simpl; congruence. Qed.

(** A float with a clear sign bit is not a negative number. *)
Lemma SFeqb_sign_clear_negative (x : spec_float) (m : positive) (e : Z) :
  Binary64.sign_clear x = true -> SFeqb x (S754_finite true m e) = false.
Proof.
  destruct x as [[|]|[|]| |[|] mx ex]; simpl; intros Hx;
    try discriminate; reflexivity.
Qed.

(** *** float32: a value that is at least 1, minus 1 *)

Lemma digits2_pos_lower_bound (m : positive) :
  (2 ^ (Zpos (digits2_pos m) - 1) <= Zpos m)%Z.
Proof.
  induction m as [m IH | m IH |]; cbn [digits2_pos]; [| |simpl; lia].
  - rewrite Pos2Z.inj_succ.
    replace (Z.succ (Zpos (digits2_pos m)) - 1)%Z
      with (Z.succ (Zpos (digits2_pos m) - 1))%Z by lia.
    rewrite Z.pow_succ_r by lia. lia.
  - rewrite Pos2Z.inj_succ.
    replace (Z.succ (Zpos (digits2_pos m)) - 1)%Z
      with (Z.succ (Zpos (digits2_pos m) - 1))%Z by lia.
    rewrite Z.pow_succ_r by lia. lia.
Qed.

Lemma iter_xO_le (m d : positive) : (m <= Pos.iter xO m d)%positive.
Proof.
  apply (Pos.iter_invariant d positive xO (fun y => (m <= y)%positive)).
  - intros y Hy. lia.
  - lia.
Qed.

(** The float32 number 1. *)
Lemma one32_value :
  Binary64.round32 (Prim2SF 1%float) = S754_finite false 8388608 (-23).
Proof. vm_compute. reflexivity. Qed.

Lemma SFsub_one_sign_clear (x : spec_float) :
  SpecFloat.valid_binary Binary64.prec32 Binary64.emax32 x = true ->
  SFltb x (S754_finite false 8388608 (-23)) = false ->
  Binary64.sign_clear
    (SFsub Binary64.prec32 Binary64.emax32 x
       (S754_finite false 8388608 (-23))) = true.
Proof.
  destruct x as [[|]|[|]| |[|] m e]; intros Hvalid Hge;
    try discriminate; try reflexivity.
  cbn [SFsub cond_Zopp].
  apply binary_normalize_sign_clear.
  assert (He : (-23 <= e)%Z).
  { unfold SFltb, SFcompare in Hge.
    destruct (Z.compare_spec e (-23)); try lia; discriminate. }
  rewrite Z.min_r by exact He.
  assert (H1 : fst (shl_align 8388608 (-23) (-23)) = 8388608%positive)
    by reflexivity.
  rewrite H1.
  remember (fst (shl_align m e (-23))) as k eqn:Ek.
  assert (Hm : (8388608 <= k)%positive); [subst k | clear Ek; lia].
  unfold shl_align.
  destruct (Z.eq_dec e (-23)) as [-> | Hne].
  - rewrite Z.sub_diag. cbn [fst].
    unfold SFltb, SFcompare in Hge. rewrite Z.compare_refl in Hge.
    destruct (Pos.compare_cont Eq m 8388608) eqn:Ec; try discriminate.
    + apply Pos.compare_eq in Ec. lia.
    + change (Pos.compare_cont Eq m 8388608) with (Pos.compare m 8388608) in Ec.
      apply Pos.compare_gt_iff in Ec. lia.
  - assert (H24 : Zpos (digits2_pos m) = 24%Z).
    { cbn [SpecFloat.valid_binary] in Hvalid. unfold bounded in Hvalid.
      apply andb_prop in Hvalid. destruct Hvalid as [Hc _].
      unfold canonical_mantissa, fexp, SpecFloat.emin,
        Binary64.prec32, Binary64.emax32 in Hc.
      apply Z.eqb_eq in Hc. lia. }
    pose proof (digits2_pos_lower_bound m) as Hlow. rewrite H24 in Hlow.
    change (2 ^ (24 - 1))%Z with 8388608%Z in Hlow.
    destruct (-23 - e)%Z as [|d|d] eqn:Ed; try lia.
    cbn [fst]. pose proof (iter_xO_le m d). lia.
Qed.

(** *** binary64 *)

Lemma mul_sign_clear x y :
  Binary64.sign_clear (Prim2SF x) = true ->
  Binary64.sign_clear (Prim2SF y) = true ->
  Binary64.sign_clear (Prim2SF (x * y)) = true.
Proof. rewrite mul_spec. apply SFmul_sign_clear. Qed.

Lemma div_sign_clear x y :
  Binary64.sign_clear (Prim2SF x) = true ->
  Binary64.sign_clear (Prim2SF y) = true ->
  Binary64.sign_clear (Prim2SF (x / y)) = true.
Proof. rewrite div_spec. apply SFdiv_sign_clear. Qed.

Lemma ltb_sign_clear y x :
  Binary64.sign_clear (Prim2SF y) = true -> PrimFloat.ltb y x = true ->
  Binary64.sign_clear (Prim2SF x) = true.
Proof. rewrite ltb_spec. apply SFltb_sign_clear. Qed.

Lemma sign_clear_ltb_zero x :
  Binary64.sign_clear (Prim2SF x) = true -> PrimFloat.ltb x 0 = false.
Proof.
  rewrite ltb_spec. change (Prim2SF 0) with (S754_zero false).
  apply sign_clear_not_negative.
Qed.

(** The cast of a float32 back to float64 keeps a clear sign bit. *)
Lemma SF2Prim_sign_clear d :
  Binary64.sign_clear d = true ->
  Binary64.sign_clear (Prim2SF (SF2Prim d)) = true.
Proof.
  destruct d as [[|]|[|]| |[|] m e]; cbn [Binary64.sign_clear negb];
    intros Hd; try discriminate; try (vm_compute; reflexivity).
  cbn [SF2Prim]. unfold Z.ldexp. rewrite ldshiftexp_spec.
  apply SFldexp_sign_clear. rewrite of_uint63_spec.
  apply binary_normalize_sign_clear.
  apply Uint63.to_Z_bounded.
Qed.

(** A temperature above [EPSILON] passes the guard, and its reciprocal is
    not the sentinel. *)
Lemma above_threshold_passes_guard (t : float) :
  PrimFloat.ltb 0.000001%float t = true ->
  PrimFloat.ltb 0.000001%float (abs t) = true.
Proof.
  intros Ht. rewrite ltb_spec, abs_spec, SFabs_sign_clear.
  - now rewrite <- ltb_spec.
  - apply (ltb_sign_clear 0.000001%float); [reflexivity | exact Ht].
Qed.

Lemma reciprocal_is_not_sentinel (t : float) :
  Binary64.sign_clear (Prim2SF t) = true ->
  PrimFloat.eqb (1 / t)%float (-9)%float = false.
Proof.
  intros Ht. rewrite eqb_spec.
  assert (E : exists m e, Prim2SF (-9)%float = S754_finite true m e).
  { eexists. eexists. vm_compute. reflexivity. }
  destruct E as (m & e & ->).
  apply SFeqb_sign_clear_negative, div_sign_clear; [reflexivity | exact Ht].
Qed.

(** A temperature that passes the guard and is not below [- EPSILON] has
    its sign bit clear. *)
Lemma guarded_temperature_sign_clear (t : float) :
  PrimFloat.ltb 0.000001%float (abs t) = true ->
  PrimFloat.ltb t (-0.000001)%float = false ->
  Binary64.sign_clear (Prim2SF t) = true.
Proof.
  rewrite !ltb_spec, abs_spec.
  assert (E : exists me ee,
             Prim2SF 0.000001%float = S754_finite false me ee
             /\ Prim2SF (-0.000001)%float = S754_finite true me ee).
  { eexists. eexists. split; vm_compute; reflexivity. }
  destruct E as (me & ee & -> & ->).
  apply above_threshold_sign_clear.
Qed.

(** ** C9: the sign of the radiance *)

Section NotNegative.

Variable libm_pow : float -> positive -> float.
Variable libm_expf : spec_float -> spec_float.

Let A := Binary64.arith libm_pow libm_expf.

(** [pow] of a positive base is a NaN or has its sign bit clear. *)
Hypothesis pow_of_positive :
  forall x p, PrimFloat.ltb 0 x = true ->
              Binary64.sign_clear (Prim2SF (libm_pow x p)) = true.

(** [expf] returns a float32, and one that is not below 1 when its argument
    is a NaN or has its sign bit clear. *)
Hypothesis expf_at_least_one :
  forall e, Binary64.sign_clear e = true ->
            SpecFloat.valid_binary Binary64.prec32 Binary64.emax32
              (libm_expf e) = true
            /\ SFltb (libm_expf e) (Binary64.round32 (Prim2SF 1%float)) = false.

Lemma positive_sign_clear (x : float) :
  PrimFloat.ltb 0 x = true -> Binary64.sign_clear (Prim2SF x) = true.
Proof. apply ltb_sign_clear. reflexivity. Qed.

Lemma nom_wn_sign_clear (w : float) :
  PrimFloat.ltb 0 w = true -> Binary64.sign_clear (Prim2SF (nom_wn A w)) = true.
Proof.
  intros Hw. unfold nom_wn.
  change (mul A) with PrimFloat.mul. change (pow A) with libm_pow.
  apply mul_sign_clear; [apply mul_sign_clear|].
  - vm_compute. reflexivity.
  - apply pow_of_positive. vm_compute. reflexivity.
  - now apply pow_of_positive.
Qed.

Lemma arg1_wn_sign_clear (w : float) :
  PrimFloat.ltb 0 w = true -> Binary64.sign_clear (Prim2SF (arg1_wn A w)) = true.
Proof.
  intros Hw. unfold arg1_wn.
  change (mul A) with PrimFloat.mul. change (div A) with PrimFloat.div.
  apply div_sign_clear; [apply mul_sign_clear|].
  - vm_compute. reflexivity.
  - now apply positive_sign_clear.
  - vm_compute. reflexivity.
Qed.

Lemma nom_wl_sign_clear (w : float) :
  PrimFloat.ltb 0 w = true -> Binary64.sign_clear (Prim2SF (nom_wl A w)) = true.
Proof.
  intros Hw. unfold nom_wl, const.
  change (mul A) with PrimFloat.mul. change (div A) with PrimFloat.div.
  change (pow A) with libm_pow.
  apply div_sign_clear; [apply mul_sign_clear|].
  - vm_compute. reflexivity.
  - apply pow_of_positive. vm_compute. reflexivity.
  - now apply pow_of_positive.
Qed.

Lemma arg1_wl_sign_clear (w : float) :
  PrimFloat.ltb 0 w = true -> Binary64.sign_clear (Prim2SF (arg1_wl A w)) = true.
Proof.
  intros Hw. unfold arg1_wl.
  change (mul A) with PrimFloat.mul. change (div A) with PrimFloat.div.
  apply div_sign_clear; [|apply mul_sign_clear].
  - vm_compute. reflexivity.
  - vm_compute. reflexivity.
  - now apply positive_sign_clear.
Qed.

(** The float32 exponent argument of a temperature with a clear sign bit. *)
Lemma exponent_sign_clear (a t : float) :
  Binary64.sign_clear (Prim2SF a) = true ->
  Binary64.sign_clear (Prim2SF t) = true ->
  Binary64.sign_clear
    (SFmul Binary64.prec32 Binary64.emax32
       (Binary64.round32 (Prim2SF a))
       (Binary64.round32 (Prim2SF (1 / t)%float))) = true.
Proof.
  intros Ha Ht. apply SFmul_sign_clear; apply round32_sign_clear; trivial.
  apply div_sign_clear; [vm_compute; reflexivity | exact Ht].
Qed.

(** An element for a temperature with a clear sign bit, from a dividend and
    a coefficient that have theirs clear, is masked or is a finite number
    that is not negative. *)
Lemma planck_cell_not_negative (nom arg1 : float -> float) (w t : float) :
  Binary64.sign_clear (Prim2SF (nom w)) = true ->
  Binary64.sign_clear (Prim2SF (arg1 w)) = true ->
  Binary64.sign_clear (Prim2SF t) = true ->
  masked_or_not_negative (ret (ma_item (planck_cell A nom arg1 w t))).
Proof.
  intros Hnom Harg Ht.
  unfold planck_cell, reciprocal_or_sentinel, mask_sentinel.
  destruct (greater A (absolute A t) (EPSILON A)).
  - cbn [fst snd]. unfold ma_true_divide. cbn [fst snd].
    change (div A) with PrimFloat.div. change (lit_1 A) with 1%float.
    change (astype_float64 A) with SF2Prim.
    change (mul32 A) with (SFmul Binary64.prec32 Binary64.emax32).
    change (sub32 A) with (SFsub Binary64.prec32 Binary64.emax32).
    change (exp32 A) with libm_expf.
    change (one32 A) with (Binary64.round32 (Prim2SF 1%float)).
    change (astype_float32 A) with (fun x => Binary64.round32 (Prim2SF x)).
    change (divide_invalid A) with Binary64.ma_divide_invalid.
    cbv beta.
    set (e := SFmul _ _ _ _).
    set (d := SF2Prim _).
    destruct (equal A (1 / t)%float (lit_m9 A)
              || Binary64.ma_divide_invalid (nom w) d) eqn:Hm;
      unfold ma_item; cbn [fst snd]; [now left | right].
    exists (nom w / d)%float. split; [reflexivity|].
    apply orb_false_elim in Hm. destruct Hm as [_ Hm].
    unfold Binary64.ma_divide_invalid in Hm.
    apply orb_false_elim in Hm. destruct Hm as [Hfin _].
    apply negb_false_iff in Hfin. split; [exact Hfin|].
    apply sign_clear_ltb_zero, div_sign_clear; [exact Hnom|].
    subst d. apply SF2Prim_sign_clear.
    assert (He : Binary64.sign_clear e = true)
      by (subst e; now apply exponent_sign_clear).
    destruct (expf_at_least_one e He) as [Hvalid Hge].
    rewrite one32_value in *. now apply SFsub_one_sign_clear.
  - cbn [fst snd]. unfold ma_true_divide. cbn [fst snd].
    replace (equal A (lit_m9 A) (lit_m9 A)) with true by reflexivity.
    left. reflexivity.
Qed.

(** Above [EPSILON] an element is the quotient by the denominator as
    numpy.ma returns it. *)
Lemma planck_cell_above_threshold (nom arg1 : float -> float) (w t : float) :
  PrimFloat.ltb 0.000001%float t = true ->
  ma_item (planck_cell A nom arg1 w t)
  = quotient_or_masked A (nom w) (denominator A arg1 w t).
Proof.
  intros Ht.
  assert (Hc : Binary64.sign_clear (Prim2SF t) = true)
    by (apply (ltb_sign_clear 0.000001%float); [reflexivity | exact Ht]).
  unfold planck_cell, reciprocal_or_sentinel, mask_sentinel.
  change (greater A (absolute A t) (EPSILON A))
    with (PrimFloat.ltb 0.000001%float (abs t)).
  rewrite above_threshold_passes_guard by exact Ht.
  cbn [fst snd]. unfold ma_true_divide, quotient_or_masked, denominator.
  cbn [fst snd].
  change (equal A (div A (lit_1 A) t) (lit_m9 A))
    with (PrimFloat.eqb (1 / t)%float (-9)%float).
  rewrite reciprocal_is_not_sentinel by exact Hc.
  cbn [orb]. unfold ma_item. cbn [fst snd].
  now destruct (divide_invalid A (nom w) _).
Qed.

End NotNegative.

(** [pow] by repeated multiplication has the sign property. *)
Lemma sample_pow_of_positive (x : float) (p : positive) :
  PrimFloat.ltb 0 x = true ->
  Binary64.sign_clear (Prim2SF (Sample.pow x p)) = true.
Proof.
  intros Hx. unfold Sample.pow.
  apply (Pos.iter_invariant p float (PrimFloat.mul x)
           (fun y => Binary64.sign_clear (Prim2SF y) = true)).
  - intros y Hy. apply mul_sign_clear; [|exact Hy].
    now apply positive_sign_clear.
  - vm_compute. reflexivity.
Qed.

Lemma sample_expf_two_at_least_one (e : spec_float) :
  Binary64.sign_clear e = true ->
  SpecFloat.valid_binary Binary64.prec32 Binary64.emax32
    (Sample.expf_two e) = true
  /\ SFltb (Sample.expf_two e) (Binary64.round32 (Prim2SF 1%float)) = false.
Proof. intros _. split; vm_compute; reflexivity. Qed.

(** C9 (as amended).  For a positive wavenumber (wavelength) and a
    temperature above [EPSILON], [blackbody_wn] ([blackbody]) returns the
    quotient of [nom] by the denominator [exp(arg1 * (1 / T)) - 1] as
    numpy.ma returns it: [masked] where it finds the division invalid, and
    otherwise a finite number that is not negative.  This holds in IEEE
    arithmetic for every [pow] that gives a positive base a result with a
    clear sign bit, and every [expf] that returns a float32 not below 1 on an
    argument with a clear sign bit. *)
Theorem radiance_is_never_negative
    (libm_pow : float -> positive -> float)
    (libm_expf : spec_float -> spec_float) (nu lambda T : float) :
  let A := Binary64.arith libm_pow libm_expf in
  (forall x p, PrimFloat.ltb 0 x = true ->
               Binary64.sign_clear (Prim2SF (libm_pow x p)) = true) ->
  (forall e, Binary64.sign_clear e = true ->
             SpecFloat.valid_binary Binary64.prec32 Binary64.emax32
               (libm_expf e) = true
             /\ SFltb (libm_expf e) (Binary64.round32 (Prim2SF 1%float))
                = false) ->
  PrimFloat.ltb 0 nu = true ->
  PrimFloat.ltb 0 lambda = true ->
  PrimFloat.ltb 0.000001%float T = true ->
  let by_wavenumber := snd (blackbody_wn A (Wscalar nu) (Tscalar T)) in
  let by_wavelength :=
    snd (blackbody A (fun _ => true) (Wscalar lambda) (Tscalar T)) in
  (by_wavenumber
   = ret (quotient_or_masked A (nom_wn A nu) (denominator A (arg1_wn A) nu T))
   /\ masked_or_not_negative by_wavenumber)
  /\ (by_wavelength
      = ret (quotient_or_masked A (nom_wl A lambda)
               (denominator A (arg1_wl A) lambda T))
      /\ masked_or_not_negative by_wavelength).
Proof.
  intros A Hpow Hexp Hnu Hlambda HT by_wavenumber by_wavelength.
  assert (Ht : Binary64.sign_clear (Prim2SF T) = true).
  { apply (ltb_sign_clear 0.000001%float); [reflexivity | exact HT]. }
  subst by_wavenumber by_wavelength A.
  rewrite blackbody_wn_scalar, blackbody_scalar by reflexivity.
  repeat split.
  - now rewrite planck_cell_above_threshold.
  - apply planck_cell_not_negative; trivial.
    + now apply nom_wn_sign_clear.
    + now apply arg1_wn_sign_clear.
  - now rewrite planck_cell_above_threshold.
  - apply planck_cell_not_negative; trivial.
    + now apply nom_wl_sign_clear.
    + now apply arg1_wl_sign_clear.
Qed.

(** 900 cm-1 and 10 micrometres at 280 K, with [pow] by repeated
    multiplication and the coarsest [expf]. *)
Lemma radiance_is_never_negative_witness :
  let A := Binary64.arith Sample.pow Sample.expf_two in
  let by_wavenumber :=
    snd (blackbody_wn A (Wscalar 90000%float) (Tscalar 280%float)) in
  let by_wavelength :=
    snd (blackbody A (fun _ => true) (Wscalar 0.00001%float)
           (Tscalar 280%float)) in
  (by_wavenumber
   = ret (quotient_or_masked A (nom_wn A 90000%float)
            (denominator A (arg1_wn A) 90000%float 280%float))
   /\ masked_or_not_negative by_wavenumber)
  /\ (by_wavelength
      = ret (quotient_or_masked A (nom_wl A 0.00001%float)
               (denominator A (arg1_wl A) 0.00001%float 280%float))
      /\ masked_or_not_negative by_wavelength).
Proof.
  intros A.
  apply (radiance_is_never_negative Sample.pow Sample.expf_two
           90000%float 0.00001%float 280%float).
  - exact sample_pow_of_positive.
  - exact sample_expf_two_at_least_one.
  - reflexivity.
  - reflexivity.
  - reflexivity.
Defined.

(** C9 as stated fails.  At 0.001 m-1 and 300 K the exponent argument is
    4.8e-8, [expf] returns 1 and the quotient by 0 is masked; so it is at a
    wavelength of 90 km and 280 K; at 900 cm-1 and 10 K [expf] overflows and
    the radiance is 0. *)
Lemma positive_inputs_without_positive_radiance :
  snd (blackbody_wn Sample.arith (Wscalar 0.001%float) (Tscalar 300%float))
  = ret Masked
  /\ snd (blackbody Sample.arith (fun _ => true) (Wscalar 90000%float)
            (Tscalar 280%float))
     = ret Masked
  /\ snd (blackbody_wn (Binary64.arith Sample.pow Sample.expf_overflowing)
            (Wscalar 90000%float) (Tscalar 10%float))
     = ret (Float64 0%float).
Proof. repeat split; vm_compute; reflexivity. Qed.

(** ** The float32 exponential out of range *)



(** ** The two operations on a matched pair *)

(** A wavenumber of 0.00106 m-1 and its reciprocal, a wavelength of 943 m, at
    256 K, with the sample library: the two exponent arguments round to
    different float32 numbers, [blackbody_wn] returns a number and
    [blackbody] returns [masked]. *)
Example matched_pair_differs_in_kind :
  let nu := 0.001060539070013725%float in
  let T := 256.00003051758176%float in
  snd (blackbody_wn Sample.arith (Wscalar nu) (Tscalar T))
  = ret (Float64 1.1917833412859019e-18%float)
  /\ snd (blackbody Sample.arith (fun _ => true) (Wscalar (1 / nu)%float)
            (Tscalar T))
     = ret Masked.
Proof. split; vm_compute; reflexivity. Qed.

(** ** The warnings of [blackbody] *)

Section Warnings.

Variable libm_pow : float -> positive -> float.
Variable libm_expf : spec_float -> spec_float.

Let A := Binary64.arith libm_pow libm_expf.

Lemma np_minimum32_sign_clear (a b : spec_float) :
  Binary64.sign_clear a = true -> Binary64.sign_clear b = true ->
  Binary64.sign_clear (Binary64.np_minimum32 a b) = true.
Proof.
  intros Ha Hb. unfold Binary64.np_minimum32.
  destruct (Binary64.is_nan32 a); [exact Ha|].
  destruct (Binary64.is_nan32 b); [exact Hb|].
  now destruct (SFltb b a).
Qed.

Lemma fold_minimum32_sign_clear (r : list spec_float) (x : spec_float) :
  Binary64.sign_clear x = true ->
  Forall (fun y => Binary64.sign_clear y = true) r ->
  Binary64.sign_clear (fold_left Binary64.np_minimum32 r x) = true.
Proof.
  revert x; induction r as [|y r IH]; intros x Hx Hr; simpl; [exact Hx|].
  inversion Hr; subst. apply IH; [|assumption].
  now apply np_minimum32_sign_clear.
Qed.

Lemma unmasked_sign_clear (cells : list (spec_float * bool)) :
  Forall (fun c => snd c = true \/ Binary64.sign_clear (fst c) = true) cells ->
  Forall (fun y => Binary64.sign_clear y = true) (unmasked cells).
Proof.
  unfold unmasked. induction 1 as [|c cells Hc _ IH]; simpl; [constructor|].
  destruct (snd c) eqn:Em; simpl; [exact IH|].
  constructor; [|exact IH].
  destruct Hc as [Hc | Hc]; [discriminate | exact Hc].
Qed.

(** [exp_arg.min() < 0] is false when every element is masked or has its
    sign bit clear. *)
Lemma min_negative_false (cells : list (spec_float * bool)) :
  Forall (fun c => snd c = true \/ Binary64.sign_clear (fst c) = true) cells ->
  min_negative A cells = false.
Proof.
  intros H. apply unmasked_sign_clear in H. unfold min_negative.
  change (@unmasked (f32 A) cells) with (@unmasked spec_float cells).
  destruct (unmasked cells) as [|x r]; [reflexivity|].
  inversion H; subst.
  change (negative32 A) with (fun x => SFltb x (S754_zero false)).
  change (minimum32 A) with Binary64.np_minimum32. cbv beta.
  apply sign_clear_not_negative. now apply fold_minimum32_sign_clear.
Qed.

(** A temperature that is not below [- EPSILON] gives a masked exponent
    argument or one with a clear sign bit. *)
Lemma exp_arg_masked_or_sign_clear (arg1 : float -> float) (w t : float) :
  Binary64.sign_clear (Prim2SF (arg1 w)) = true ->
  PrimFloat.ltb t (-0.000001)%float = false ->
  snd (exp_arg_cell A arg1 w t) = true
  \/ Binary64.sign_clear (fst (exp_arg_cell A arg1 w t)) = true.
Proof.
  intros Ha Ht. unfold exp_arg_cell, reciprocal_or_sentinel, mask_sentinel.
  change (greater A (absolute A t) (EPSILON A))
    with (PrimFloat.ltb 0.000001%float (abs t)).
  destruct (PrimFloat.ltb 0.000001%float (abs t)) eqn:Hguard; cbn [fst snd].
  - right. apply exponent_sign_clear; [exact Ha|].
    now apply guarded_temperature_sign_clear.
  - left. reflexivity.
Qed.

End Warnings.

(** In IEEE arithmetic [blackbody] logs no warning when every wavelength is
    positive and no temperature is below [- EPSILON]: temperatures above
    [EPSILON] give exponent arguments that are not negative, and the others,
    a NaN included, are masked and left out of [exp_arg.min()].  This holds
    whatever [pow] and [expf] compute. *)
Theorem valid_input_logs_no_warning
    (libm_pow : float -> positive -> float)
    (libm_expf : spec_float -> spec_float) (memory : nat -> bool)
    (w : spectral_input float) (temp : temperature_input float) :
  let A := Binary64.arith libm_pow libm_expf in
  Forall (fun l => PrimFloat.ltb 0 l = true) (spectral_array A w) ->
  Forall (fun t => PrimFloat.ltb t (-0.000001)%float = false)
         (flat (temperature_array A temp)) ->
  spectral_array A w <> [] ->
  flat (temperature_array A temp) <> [] ->
  memory (length (spectral_array A w)
          * length (flat (temperature_array A temp))) = true ->
  warnings (fst (blackbody A memory w temp)) = [].
Proof.
  intros A Hws Hts Hw0 Ht0 Hmem.
  destruct (blackbody_reaches_ladder A memory w temp Hw0 Ht0 Hmem)
    as [_ ->].
  cbv zeta. subst A. rewrite min_negative_false; [reflexivity|].
  apply Forall_forall. intros c Hc.
  unfold exp_arg_grid in Hc. apply in_flat_map in Hc.
  destruct Hc as (t & Ht & Hc). apply in_map_iff in Hc.
  destruct Hc as (l & <- & Hl).
  rewrite Forall_forall in Hws, Hts.
  apply exp_arg_masked_or_sign_clear; [|now apply Hts].
  apply arg1_wl_sign_clear. now apply Hws.
Qed.

(** Two wavelengths against 0 K and 280 K. *)
Lemma valid_input_logs_no_warning_witness :
  warnings (fst (blackbody Sample.arith (fun _ => true)
                   (Wsequence [0.00001; 0.000001]%float)
                   (Tarray (Ndarray [2] [0; 280]%float)))) = [].
Proof.
  apply (valid_input_logs_no_warning Sample.pow Sample.expf (fun _ => true)
           (Wsequence [0.00001; 0.000001]%float)
           (Tarray (Ndarray [2] [0; 280]%float))).
  - repeat constructor.
  - repeat constructor.
  - simpl. congruence.
  - simpl. congruence.
  - reflexivity.
Defined.

(** ** C6: the count of dubious exponent arguments *)

(** C6.  [blackbody(1e-05, [0.0, -300.0, 280.0])] computes one negative
    exponent argument, that of -300 K, and logs a count of 2: the test
    [exp_arg < 0] also finds the row of 0 K, which is masked and holds the
    product of the coefficient with the sentinel -9.  This is so whatever
    [pow] and [expf] compute. *)
Theorem dubious_count_includes_masked_rows
    (libm_pow : float -> positive -> float)
    (libm_expf : spec_float -> spec_float) :
  let A := Binary64.arith libm_pow libm_expf in
  let ts := [0; -300; 280]%float in
  let grid := exp_arg_grid A (arg1_wl A) [0.00001%float] ts in
  warnings (fst (blackbody A (fun _ => true) (Wscalar 0.00001%float)
                   (Tarray (Ndarray [3] ts))))
  = [WarningFishy; WarningDubious 2]
  /\ map snd grid = [true; false; false]
  /\ map (fun c => negative32 A (fst c)) grid = [true; true; false]
  /\ length (filter (negative32 A) (unmasked grid)) = 1.
Proof.
  intros A ts grid.
  assert (Hws : spectral_array A (Wscalar 0.00001%float) <> [])
    by (simpl; congruence).
  assert (Hts : flat (temperature_array A (Tarray (Ndarray [3] ts))) <> [])
    by (subst ts; simpl; congruence).
  destruct (blackbody_reaches_ladder A (fun _ => true)
              (Wscalar 0.00001%float) (Tarray (Ndarray [3] ts))
              Hws Hts eq_refl) as [_ Hlog].
  rewrite Hlog.
  repeat split; vm_compute; reflexivity.
Qed.

(** ** C7: memory exhaustion *)

(** C7 (as amended).  With non-empty arguments, when the product of the
    [try] block of [blackbody] cannot be allocated, the call raises
    [MemoryError], returning nothing, and its one warning is the advice to
    build the radiance-to-brightness-temperature table.  When that product is
    allocated and a later array of the size of the grid is not
    ([np.where(exp_arg < 0)], reached when the dubious-exponent test fires,
    [np.exp(exp_arg)], the subtraction of 1, [nom / denom]), the call raises
    [MemoryError] as well, returning nothing, and the advice is not
    logged. *)
Theorem memory_error_is_surfaced (A : Arith)
    (memory : allocation -> nat -> bool)
    (w : spectral_input (f64 A)) (temp : temperature_input (f64 A)) :
  spectral_array A w <> [] ->
  flat (temperature_array A temp) <> [] ->
  let ws := spectral_array A w in
  let ts := flat (temperature_array A temp) in
  let n := length ws * length ts in
  let call := blackbody_allocating A memory w temp in
  (memory AllocProduct n = false ->
   snd call = raise MemoryError
   /\ returned_entries (snd call) = None
   /\ warnings (fst call) = [WarningDimensions])
  /\ (memory AllocProduct n = true ->
      memory AllocExp n = false \/ memory AllocDenom n = false
      \/ memory AllocRad n = false
      \/ (memory AllocNegative n = false
          /\ min_negative A (exp_arg_grid A (arg1_wl A) ws ts) = true) ->
      snd call = raise MemoryError
      /\ returned_entries (snd call) = None
      /\ ~ In WarningDimensions (warnings (fst call))).
Proof.
  intros Hws Hts ws ts n call.
  destruct (blackbody_allocating_outcome A memory w temp Hws Hts)
    as [Ho Hw].
  cbv zeta in Ho, Hw. fold ws ts in Ho, Hw. fold n in Ho, Hw.
  fold call in Ho, Hw.
  split.
  - intros Hp. rewrite Hp in Ho, Hw. rewrite Ho, Hw. repeat split.
  - intros Hp Hlater. rewrite Hp in Ho, Hw.
    assert (Hadvice : ~ In WarningDimensions (warnings (fst call))).
    { rewrite Hw.
      destruct (min_negative A _); [destruct (memory AllocNegative n)|];
        simpl; intuition discriminate. }
    assert (Hraise : snd call = raise MemoryError).
    { rewrite Ho.
      destruct Hlater as [H | [H | [H | [H Hfishy]]]]; rewrite ?H, ?Hfishy.
      - cbn [andb]. now destruct (min_negative A _ && _).
      - rewrite andb_false_r. cbn [andb]. now destruct (min_negative A _ && _).
      - rewrite andb_false_r. now destruct (min_negative A _ && _).
      - reflexivity. }
    rewrite Hraise. repeat split. exact Hadvice.
Qed.

(** One wavelength and one temperature: an allocator that refuses the
    product, and one that refuses the array of [np.exp(exp_arg)]. *)
Lemma memory_error_is_surfaced_witness :
  let A := Sample.arith in
  let w := Wscalar 0.00001%float in
  let temp := Tscalar 280%float in
  (snd (blackbody_allocating A Sample.no_product w temp) = raise MemoryError
   /\ returned_entries (snd (blackbody_allocating A Sample.no_product w temp))
      = None
   /\ warnings (fst (blackbody_allocating A Sample.no_product w temp))
      = [WarningDimensions])
  /\ (snd (blackbody_allocating A Sample.no_exp w temp) = raise MemoryError
      /\ returned_entries (snd (blackbody_allocating A Sample.no_exp w temp))
         = None
      /\ ~ In WarningDimensions
           (warnings (fst (blackbody_allocating A Sample.no_exp w temp)))).
Proof.
  intros A w temp.
  assert (Hws : spectral_array A w <> []) by (simpl; congruence).
  assert (Hts : flat (temperature_array A temp) <> []) by (simpl; congruence).
  split.
  - apply (proj1 (memory_error_is_surfaced A Sample.no_product w temp
                    Hws Hts)).
    reflexivity.
  - apply (proj2 (memory_error_is_surfaced A Sample.no_exp w temp Hws Hts)).
    + reflexivity.
    + left. reflexivity.
Defined.

(** C7 as stated fails: when the array of [np.exp(exp_arg)] cannot be
    allocated the call raises [MemoryError] and logs no warning at all. *)
Lemma memory_error_without_advice :
  snd (blackbody_allocating Sample.arith Sample.no_exp
         (Wscalar 0.00001%float) (Tscalar 280%float))
  = raise MemoryError
  /\ warnings (fst (blackbody_allocating Sample.arith Sample.no_exp
                      (Wscalar 0.00001%float) (Tscalar 280%float)))
     = [].
Proof. split; vm_compute; reflexivity. Qed.

(** When every array built after the [try] block is allocated,
    [blackbody_allocating] is [blackbody] with the allocator of the
    product. *)
Lemma blackbody_allocating_after_try (A : Arith)
    (memory : allocation -> nat -> bool)
    (w : spectral_input (f64 A)) (temp : temperature_input (f64 A)) :
  (forall n, memory AllocNegative n = true /\ memory AllocExp n = true
             /\ memory AllocDenom n = true /\ memory AllocRad n = true) ->
  blackbody_allocating A memory w temp
  = blackbody A (memory AllocProduct) w temp.
Proof.
  intros Hmem. unfold blackbody. unfold blackbody_allocating. cbv zeta.
  cbn [after_try].
  set (n := length (spectral_array A w) * _).
  destruct (Hmem n) as (-> & -> & -> & ->).
  destruct (reduce (maximum A) _) as [e1 | mx1]; [reflexivity|].
  destruct (reduce (minimum A) _) as [e2 | mn1]; [reflexivity|].
  destruct (ma_reduce (maximum A) _) as [e3 | mx2]; [reflexivity|].
  destruct (ma_reduce (minimum A) _) as [e4 | mn2]; [reflexivity|].
  destruct (memory AllocProduct n); [|reflexivity].
  destruct (ma_reduce (maximum32 A) _) as [e5 | mx3]; [reflexivity|].
  destruct (ma_reduce (minimum32 A) _) as [e6 | mn3]; [reflexivity|].
  cbn [negb andb]. now rewrite andb_false_r.
Qed.

(** ** Temperatures in IEEE arithmetic *)

(** In IEEE arithmetic every temperature that fails the guard
    [abs(T) > EPSILON], a NaN included, gives [masked] in both operations,
    whatever the spectral position and whatever [pow] and [expf] compute. *)
Theorem guard_failures_are_masked_binary64
    (libm_pow : float -> positive -> float)
    (libm_expf : spec_float -> spec_float) (x t : float) :
  let A := Binary64.arith libm_pow libm_expf in
  PrimFloat.ltb 0.000001%float (abs t) = false ->
  snd (blackbody_wn A (Wscalar x) (Tscalar t)) = ret Masked
  /\ snd (blackbody A (fun _ => true) (Wscalar x) (Tscalar t)) = ret Masked.
Proof.
  intros A Hguard.
  assert (Hsent : equal A (lit_m9 A) (lit_m9 A) = true)
    by (vm_compute; reflexivity).
  split.
  - rewrite blackbody_wn_scalar. apply f_equal, observe_none_masked.
    now apply planck_cell_near_zero.
  - rewrite blackbody_scalar by reflexivity.
    apply f_equal, observe_none_masked.
    now apply planck_cell_near_zero.
Qed.

(** A NaN temperature. *)
Lemma guard_failures_are_masked_binary64_witness :
  snd (blackbody_wn Sample.arith (Wscalar 90000%float) (Tscalar nan))
  = ret Masked
  /\ snd (blackbody Sample.arith (fun _ => true) (Wscalar 0.00001%float)
            (Tscalar nan)) = ret Masked.
Proof.
  split.
  - apply (guard_failures_are_masked_binary64 Sample.pow Sample.expf
             90000%float nan).
    vm_compute. reflexivity.
  - apply (guard_failures_are_masked_binary64 Sample.pow Sample.expf
             0.00001%float nan).
    vm_compute. reflexivity.
Defined.

Section Float32Cast.

Variable A : Arith.

(** The scalar path reads the temperature through the float32 cast of its
    reciprocal (or of the sentinel) and through the mask bit only. *)
Lemma planck_cell_through_float32 nom arg1 (w t1 t2 : f64 A) :
  astype_float32 A (reciprocal_or_sentinel A t1)
  = astype_float32 A (reciprocal_or_sentinel A t2) ->
  equal A (reciprocal_or_sentinel A t1) (lit_m9 A)
  = equal A (reciprocal_or_sentinel A t2) (lit_m9 A) ->
  planck_cell A nom arg1 w t1 = planck_cell A nom arg1 w t2.
Proof.
  intros Hcast Hmask. unfold planck_cell, mask_sentinel. cbn [fst snd].
  now rewrite Hcast, Hmask.
Qed.

Lemma rad_through_float32 nom arg1 (ws : list (f64 A)) (t1 t2 : f64 A) :
  astype_float32 A (reciprocal_or_sentinel A t1)
  = astype_float32 A (reciprocal_or_sentinel A t2) ->
  equal A (reciprocal_or_sentinel A t1) (lit_m9 A)
  = equal A (reciprocal_or_sentinel A t2) (lit_m9 A) ->
  rad_of A (map nom ws)
    (denom_of A (exp_arg_of A (map arg1 ws) (arg2_of A (Ndarray [1] [t1]))))
  = rad_of A (map nom ws)
      (denom_of A (exp_arg_of A (map arg1 ws) (arg2_of A (Ndarray [1] [t2])))).
Proof.
  intros Hcast Hmask.
  pose proof (flat_rad_of A nom arg1 ws (Ndarray [1] [t1]) eq_refl) as F1.
  pose proof (flat_rad_of A nom arg1 ws (Ndarray [1] [t2]) eq_refl) as F2.
  pose proof (shape_rad_of A nom arg1 ws (Ndarray [1] [t1])) as S1.
  pose proof (shape_rad_of A nom arg1 ws (Ndarray [1] [t2])) as S2.
  destruct (rad_of A (map nom ws) _) as [sh1 fl1].
  destruct (rad_of A (map nom ws) _) as [sh2 fl2].
  simpl in *. subst sh1 sh2 fl1 fl2. f_equal.
  unfold planck_grid. simpl. f_equal.
  apply map_ext. intros w. now apply planck_cell_through_float32.
Qed.

End Float32Cast.

(** In IEEE arithmetic two temperatures that pass the guard, have the same
    float32 reciprocal and agree on whether their reciprocal is -9.0 are
    indistinguishable: both operations return the same result for them, on
    any spectral positions and whatever [pow] and [expf] compute. *)
Theorem temperatures_sharing_a_float32_reciprocal
    (libm_pow : float -> positive -> float)
    (libm_expf : spec_float -> spec_float)
    (w : spectral_input float) (t1 t2 : float) :
  let A := Binary64.arith libm_pow libm_expf in
  PrimFloat.ltb 0.000001%float (abs t1) = true ->
  PrimFloat.ltb 0.000001%float (abs t2) = true ->
  Binary64.round32 (Prim2SF (1 / t1)%float)
  = Binary64.round32 (Prim2SF (1 / t2)%float) ->
  PrimFloat.eqb (1 / t1)%float (-9)%float
  = PrimFloat.eqb (1 / t2)%float (-9)%float ->
  spectral_array A w <> [] ->
  snd (blackbody_wn A w (Tscalar t1)) = snd (blackbody_wn A w (Tscalar t2))
  /\ snd (blackbody A (fun _ => true) w (Tscalar t1))
     = snd (blackbody A (fun _ => true) w (Tscalar t2)).
Proof.
  intros A Hg1 Hg2 Hcast Hmask Hws.
  assert (Hr1 : reciprocal_or_sentinel A t1 = (1 / t1)%float).
  { unfold reciprocal_or_sentinel.
    change (greater A (absolute A t1) (EPSILON A))
      with (PrimFloat.ltb 0.000001%float (abs t1)).
    now rewrite Hg1. }
  assert (Hr2 : reciprocal_or_sentinel A t2 = (1 / t2)%float).
  { unfold reciprocal_or_sentinel.
    change (greater A (absolute A t2) (EPSILON A))
      with (PrimFloat.ltb 0.000001%float (abs t2)).
    now rewrite Hg2. }
  assert (Hc : astype_float32 A (reciprocal_or_sentinel A t1)
               = astype_float32 A (reciprocal_or_sentinel A t2)).
  { rewrite Hr1, Hr2. exact Hcast. }
  assert (Hm : equal A (reciprocal_or_sentinel A t1) (lit_m9 A)
               = equal A (reciprocal_or_sentinel A t2) (lit_m9 A)).
  { rewrite Hr1, Hr2. exact Hmask. }
  split.
  - rewrite !blackbody_wn_outcome. unfold rad_wn, select_shape.
    cbn [temperature_array nd_shape].
    now rewrite (rad_through_float32 A (nom_wn A) (arg1_wn A) _ t1 t2 Hc Hm).
  - destruct (blackbody_reaches_ladder A (fun _ => true) w (Tscalar t1))
      as [-> _]; trivial; [simpl; congruence|].
    destruct (blackbody_reaches_ladder A (fun _ => true) w (Tscalar t2))
      as [-> _]; trivial; [simpl; congruence|].
    unfold rad_wl, select_shape. cbn [temperature_array nd_shape].
    now rewrite (rad_through_float32 A (nom_wl A) (arg1_wl A) _ t1 t2 Hc Hm).
Qed.

(** 300 K and 300.000001 K are one temperature to both operations. *)
Lemma temperatures_sharing_a_float32_reciprocal_witness :
  let w := Wsequence [90000; 100000]%float in
  snd (blackbody_wn Sample.arith w (Tscalar 300%float))
  = snd (blackbody_wn Sample.arith w (Tscalar 300.000001%float))
  /\ snd (blackbody Sample.arith (fun _ => true) w (Tscalar 300%float))
     = snd (blackbody Sample.arith (fun _ => true) w
              (Tscalar 300.000001%float)).
Proof.
  intros w.
  apply (temperatures_sharing_a_float32_reciprocal Sample.pow Sample.expf
           w 300%float 300.000001%float).
  - vm_compute. reflexivity.
  - vm_compute. reflexivity.
  - vm_compute. reflexivity.
  - vm_compute. reflexivity.
  - simpl. congruence.
Defined.
